(** * JSON explorer: the tree model and the statistics fold

    A shallow embedding of [web/src/components/json-tree.tsx] (the type
    [JsonValue], the components [JsonTree], [JsonNode], [JsonPrimitive]) and
    of [web/src/app/page.tsx] ([JsonStats], [buildStats], [parseAndLoad]),
    followed by the properties the specification states about them. *)

From Stdlib Require Import ZArith List String Ascii Bool Lia.
From Stdlib Require Import DecimalString SpecFloat Sorted Permutation.
From Stdlib Require DecimalZ.
Import ListNotations.

Local Open Scope Z_scope.
Local Open Scope string_scope.

(** ** Values *)

(** A JavaScript [number] is an IEEE-754 binary64; [spec_float] is the
    Standard Library's description of such values. *)
Definition number : Type := spec_float.

(** The double nearest to an integer (exact below 2^53). *)
Definition number_of_Z (z : Z) : number := binary_normalize 53 1024 z 0 false.

(** [JsonValue] of json-tree.tsx, constructor for constructor.  The property
    list of an object is kept the way the runtime enumerates it
    ([Object.entries], [Object.values]); how that order comes from the order
    of definition is [defineProperty] below. *)
Unset Elimination Schemes.
Inductive JsonValue : Type :=
| JString (s : string)
| JNumber (n : number)
| JBoolean (b : bool)
| JNull
| JArray (items : list JsonValue)
| JObject (props : list (string * JsonValue)).
Set Elimination Schemes.

(** Induction over a value with the hypotheses for the elements of an array
    and for the property values of an object. *)
Section JsonValue_induction.
Variable P : JsonValue -> Prop.
Hypothesis HString : forall s, P (JString s).
Hypothesis HNumber : forall n, P (JNumber n).
Hypothesis HBoolean : forall b, P (JBoolean b).
Hypothesis HNull : P JNull.
Hypothesis HArray : forall items, Forall P items -> P (JArray items).
Hypothesis HObject :
  forall props, Forall (fun kv => P (snd kv)) props -> P (JObject props).

Fixpoint JsonValue_ind (v : JsonValue) : P v :=
  match v with
  | JString s => HString s
  | JNumber n => HNumber n
  | JBoolean b => HBoolean b
  | JNull => HNull
  | JArray items =>
      HArray items
        ((fix all (l : list JsonValue) : Forall P l :=
            match l with
            | [] => Forall_nil P
            | x :: l' => Forall_cons x (JsonValue_ind x) (all l')
            end) items)
  | JObject props =>
      HObject props
        ((fix all (l : list (string * JsonValue))
            : Forall (fun kv => P (snd kv)) l :=
            match l with
            | [] => Forall_nil _
            | kv :: l' =>
                Forall_cons kv (JsonValue_ind (snd kv)) (all l')
            end) props)
  end.
End JsonValue_induction.

(** ** Runtime library *)

(** [Object.entries(o)] and [Object.values(o)]: own enumerable properties in
    the object's property order. *)
Definition Object_entries (props : list (string * JsonValue))
  : list (string * JsonValue) := props.

Definition Object_values (props : list (string * JsonValue))
  : list JsonValue := map snd props.

(** [a.reduce(callback, initialValue)]: left to right, accumulator first. *)
Definition Array_reduce {A B : Type} (callback : B -> A -> B) (initialValue : B)
  (a : list A) : B := fold_left callback a initialValue.

(** [a.length] as a number. *)
Definition Array_length {A : Type} (a : list A) : Z := Z.of_nat (List.length a).

(** [a.map((x, index) => ...)]: the callback receives the element and its
    index, starting at 0. *)
Section Array_map.
Context {A B : Type} (callback : A -> Z -> B).

Fixpoint Array_map_from (index : Z) (a : list A) : list B :=
  match a with
  | [] => []
  | x :: a' => callback x index :: Array_map_from (index + 1) a'
  end.

Definition Array_map (a : list A) : list B := Array_map_from 0 a.
End Array_map.

(** [String(n)] for an integer-valued number. *)
Definition Number_toString (n : Z) : string :=
  NilZero.string_of_int (Z.to_int n).

(** ** page.tsx: [JsonStats] and [buildStats] *)

Record JsonStats : Type := mkStats {
  nodeCount : Z;
  objectCount : Z;
  arrayCount : Z;
  primitiveCount : Z;
  maxDepth : Z
}.

(** The reducer shared by the array and the object branch of [buildStats]:
    [stats] is the result of the recursive call on the entry. *)
Definition accumulate (acc stats : JsonStats) : JsonStats :=
  {| nodeCount := nodeCount acc + nodeCount stats;
     objectCount := objectCount acc + objectCount stats;
     arrayCount := arrayCount acc + arrayCount stats;
     primitiveCount := primitiveCount acc + primitiveCount stats;
     maxDepth := Z.max (maxDepth acc) (maxDepth stats) |}.

Fixpoint buildStats (value : JsonValue) (depth : Z) : JsonStats :=
  match value with
  | JNull =>
      {| nodeCount := 1; objectCount := 0; arrayCount := 0;
         primitiveCount := 1; maxDepth := depth |}
  | JArray items =>
      Array_reduce
        (fun acc entry => accumulate acc (buildStats entry (depth + 1)))
        {| nodeCount := 1; objectCount := 0; arrayCount := 1;
           primitiveCount := 0; maxDepth := depth |}
        items
  | JObject props =>
      (* [Object.values(value).reduce(...)], with the projection to the
         property value moved into the reducer so that the recursion is
         structural; [buildStats_object] gives the source's form back. *)
      Array_reduce
        (fun acc kv => accumulate acc (buildStats (snd kv) (depth + 1)))
        {| nodeCount := 1; objectCount := 1; arrayCount := 0;
           primitiveCount := 0; maxDepth := depth |}
        props
  | _ =>
      {| nodeCount := 1; objectCount := 0; arrayCount := 0;
         primitiveCount := 1; maxDepth := depth |}
  end.

(** ** json-tree.tsx: the rendered tree *)

(** [JsonNodeProps]. *)
Record JsonNodeProps : Type := mkProps {
  name : option string;
  value : JsonValue;
  depth : Z;
  isLast : bool
}.

(** What [JsonPrimitive] renders: one span per [typeof] case. *)
Inductive PrimitiveSpan : Type :=
| StringSpan (text : string)
| NumberSpan (n : number)
| BooleanSpan (text : string)
| NullSpan
| UnsupportedSpan.

Inductive ContainerKind : Type := ObjectKind | ArrayKind.

(** A rendered [JsonNode]: the props it received and what it returned.  A
    container is a [<details>] element with its [open] attribute, the name
    shown in the summary, the size label and the child [JsonNode]s, each
    with its React key; a primitive is a row with the name shown, the
    [JsonPrimitive] span and the trailing comma. *)
Unset Elimination Schemes.
Inductive TreeNode : Type :=
| Details (props : JsonNodeProps) (kind : ContainerKind) (open : bool)
    (shown : option string) (sizeLabel : string)
    (children : list (string * TreeNode))
| Row (props : JsonNodeProps) (shown : option string)
    (content : PrimitiveSpan) (comma : bool).
Set Elimination Schemes.

(** The double quote character, as a string. *)
Definition quote : string := String (ascii_of_nat 34) EmptyString.

(** [JsonPrimitive]: a switch on [typeof value]; [typeof null] is
    ["object"], and so is that of an array or object. *)
Definition JsonPrimitive (value : JsonValue) : PrimitiveSpan :=
  match value with
  | JString s => StringSpan (quote ++ s ++ quote)
  | JNumber n => NumberSpan n
  | JBoolean b => BooleanSpan (if b then "true" else "false")
  | JNull | JArray _ | JObject _ => NullSpan
  end.

(** [name ? <span>name</span> : null]: the empty string is falsy. *)
Definition shownName (name : option string) : option string :=
  match name with
  | Some s => if String.eqb s EmptyString then None else Some s
  | None => None
  end.

(** [`${n} ${n === 1 ? one : many}`]. *)
Definition sizeLabelOf (n : Z) (one many : string) : string :=
  Number_toString n ++ " " ++ (if (n =? 1)%Z then one else many).

(** [`${name ?? "item"}-${index}`]. *)
Definition itemKey (name : option string) (index : Z) : string :=
  match name with Some s => s | None => "item" end
  ++ "-" ++ Number_toString index.

(** [`[${index}]`]. *)
Definition indexLabel (index : Z) : string :=
  "[" ++ Number_toString index ++ "]".

(** [JsonNode]: [isObject] first, then [isArray], then the primitive row. *)
Fixpoint JsonNode (name : option string) (value : JsonValue) (depth : Z)
  (isLast : bool) : TreeNode :=
  match value with
  | JObject props =>
      let entries := Object_entries props in
      let sizeLabel := sizeLabelOf (Array_length entries) "field" "fields" in
      Details (mkProps name value depth isLast) ObjectKind (depth <? 2)%Z
        (shownName name) sizeLabel
        (Array_map
           (fun entry index =>
              let childName := fst entry in
              let childValue := snd entry in
              (childName,
               JsonNode (Some childName) childValue (depth + 1)
                 ((index =? Array_length entries - 1)%Z)))
           entries)
  | JArray items =>
      Details (mkProps name value depth isLast) ArrayKind (depth <? 2)%Z
        (shownName name)
        (sizeLabelOf (Array_length items) "item" "items")
        (Array_map
           (fun childValue index =>
              (itemKey name index,
               JsonNode (Some (indexLabel index)) childValue (depth + 1)
                 ((index =? Array_length items - 1)%Z)))
           items)
  | _ =>
      Row (mkProps name value depth isLast) (shownName name)
        (JsonPrimitive value) (negb isLast)
  end.

(** [JsonTree]: the root [JsonNode], at depth 0 and with [isLast] set;
    [rootLabel] is optional and defaults to ["root"]. *)
Definition JsonTree (value : JsonValue) (rootLabel : option string)
  : TreeNode :=
  JsonNode (Some match rootLabel with Some l => l | None => "root" end)
    value 0 true.

(** ** Property order of an ordinary object

    [Object.entries] and [Object.values] follow the order of
    OrdinaryOwnPropertyKeys (ECMA-262, 10.1.11.1): first the keys that are
    array indices, in ascending numeric order, then the other string keys in
    the order in which they were created. *)

Definition MAX_ARRAY_INDEX : N := 4294967294.

(** A key is an array index when it is the canonical decimal form of an
    integer between 0 and 2^32 - 2. *)
Definition array_index (key : string) : option N :=
  match NilEmpty.uint_of_string key with
  | Some u =>
      let i := N.of_uint u in
      if String.eqb (NilZero.string_of_uint (N.to_uint i)) key
         && (i <=? MAX_ARRAY_INDEX)%N
      then Some i else None
  | None => None
  end.

Definition hasOwn (props : list (string * JsonValue)) (key : string) : bool :=
  existsb (fun kv => String.eqb (fst kv) key) props.

(** Assigning to an existing property keeps its place. *)
Fixpoint overwrite (props : list (string * JsonValue)) (key : string)
  (v : JsonValue) : list (string * JsonValue) :=
  match props with
  | [] => []
  | kv :: rest =>
      if String.eqb (fst kv) key then (key, v) :: rest
      else kv :: overwrite rest key v
  end.

(** A new array-index key goes after the smaller indices and before
    everything else. *)
Fixpoint insertIndex (props : list (string * JsonValue)) (i : N)
  (key : string) (v : JsonValue) : list (string * JsonValue) :=
  match props with
  | [] => [(key, v)]
  | kv :: rest =>
      match array_index (fst kv) with
      | Some j =>
          if (j <? i)%N then kv :: insertIndex rest i key v
          else (key, v) :: kv :: rest
      | None => (key, v) :: kv :: rest
      end
  end.

(** CreateDataProperty on an ordinary object, as an object literal and
    [JSON.parse] perform it for each member in source order. *)
Definition defineProperty (props : list (string * JsonValue)) (key : string)
  (v : JsonValue) : list (string * JsonValue) :=
  if hasOwn props key then overwrite props key v
  else
    match array_index key with
    | Some i => insertIndex props i key v
    | None => (props ++ [(key, v)])%list
    end.

(** The object whose members are written in the order [members]. *)
Definition objectOf (members : list (string * JsonValue)) : JsonValue :=
  JObject
    (fold_left (fun props kv => defineProperty props (fst kv) (snd kv))
       members []).

(** ** page.tsx: the state of [Home] and [parseAndLoad] *)

Record HomeState : Type := mkHome {
  jsonText : string;
  data : JsonValue;
  activeLabel : string;
  error : option string;
  updatedAt : Z
}.

(** What a [catch] clause can receive: an [Error] with its message, or any
    other thrown value. *)
Inductive Thrown : Type :=
| ErrorObject (message : string)
| OtherThrown.

Inductive ParseOutcome : Type :=
| Parsed (parsed : JsonValue)
| Threw (err : Thrown).

Section Home.
(** The decoder and the clock are the environment's. *)
Variable JSON_parse : string -> ParseOutcome.
Variable now : Z.

Definition parseAndLoad (s : HomeState) (text label : string) : HomeState :=
  match JSON_parse text with
  | Parsed parsed =>
      {| jsonText := jsonText s;
         data := parsed;
         activeLabel := label;
         error := None;
         updatedAt := now |}
  | Threw err =>
      {| jsonText := jsonText s;
         data := data s;
         activeLabel := activeLabel s;
         error :=
           Some match err with
                | ErrorObject message => "Unable to parse JSON: " ++ message
                | OtherThrown => "Unable to parse JSON content."
                end;
         updatedAt := updatedAt s |}
  end.

Definition handleTextParse (s : HomeState) : HomeState :=
  parseAndLoad s (jsonText s) "Manual input".
End Home.

(** [useMemo(() => buildStats(data), [data])]. *)
Definition stats (s : HomeState) : JsonStats := buildStats (data s) 0.

(** [<JsonTree value={data} rootLabel="fromj.json" />]. *)
Definition renderedTree (s : HomeState) : TreeNode :=
  JsonTree (data s) (Some "fromj.json").

(** ** Observations on values and trees *)

Definition propsOf (t : TreeNode) : JsonNodeProps :=
  match t with
  | Details props _ _ _ _ _ => props
  | Row props _ _ _ => props
  end.

Definition childrenOf (t : TreeNode) : list TreeNode :=
  match t with
  | Details _ _ _ _ _ children => map snd children
  | Row _ _ _ _ => []
  end.

(** The [open] attribute; a primitive row has none. *)
Definition defaultOpen (t : TreeNode) : option bool :=
  match t with
  | Details _ _ open _ _ _ => Some open
  | Row _ _ _ _ => None
  end.

Definition kindOf (t : TreeNode) : option ContainerKind :=
  match t with
  | Details _ kind _ _ _ _ => Some kind
  | Row _ _ _ _ => None
  end.

(** Every node of a tree, the root first. *)
Fixpoint nodes (t : TreeNode) : list TreeNode :=
  t :: match t with
       | Details _ _ _ _ _ children =>
           flat_map (fun kc => nodes (snd kc)) children
       | Row _ _ _ _ => []
       end.

(** The depth of every node of a value whose root is at depth [d]: each
    descent into a child adds 1. *)
Fixpoint nodeDepths (v : JsonValue) (d : Z) : list Z :=
  d :: match v with
       | JArray items => flat_map (fun c => nodeDepths c (d + 1)) items
       | JObject props =>
           flat_map (fun kv => nodeDepths (snd kv) (d + 1)) props
       | _ => []
       end.

(** Levels below the root. *)
Fixpoint height (v : JsonValue) : nat :=
  match v with
  | JArray items => S (fold_right (fun c h => Nat.max (height c) h) O items)
  | JObject props =>
      S (fold_right (fun kv h => Nat.max (height (snd kv)) h) O props)
  | _ => O
  end.

(** ** The recursion with a bounded call stack

    The same two functions with the recursion written on the number of
    stack frames still available: [None] is the engine giving up. *)

Fixpoint buildStatsWithin (frames : nat) (value : JsonValue) (depth : Z)
  : option JsonStats :=
  match frames with
  | O => None
  | S frames' =>
      let reducer (acc : option JsonStats) (entry : JsonValue) :=
        match acc with
        | Some acc' =>
            option_map (accumulate acc')
              (buildStatsWithin frames' entry (depth + 1))
        | None => None
        end in
      match value with
      | JNull => Some (mkStats 1 0 0 1 depth)
      | JArray items => Array_reduce reducer (Some (mkStats 1 0 1 0 depth)) items
      | JObject props =>
          Array_reduce reducer (Some (mkStats 1 1 0 0 depth))
            (Object_values props)
      | _ => Some (mkStats 1 0 0 1 depth)
      end
  end.

(** All the children, or nothing if one of them failed. *)
Fixpoint allOf {A : Type} (l : list (option A)) : option (list A) :=
  match l with
  | [] => Some []
  | Some x :: l' => option_map (cons x) (allOf l')
  | None :: _ => None
  end.

Fixpoint JsonNodeWithin (frames : nat) (name : option string)
  (value : JsonValue) (depth : Z) (isLast : bool) : option TreeNode :=
  match frames with
  | O => None
  | S frames' =>
      match value with
      | JObject props =>
          let entries := Object_entries props in
          option_map
            (Details (mkProps name value depth isLast) ObjectKind
               (depth <? 2)%Z (shownName name)
               (sizeLabelOf (Array_length entries) "field" "fields"))
            (allOf
               (Array_map
                  (fun entry index =>
                     option_map (pair (fst entry))
                       (JsonNodeWithin frames' (Some (fst entry)) (snd entry)
                          (depth + 1)
                          ((index =? Array_length entries - 1)%Z)))
                  entries))
      | JArray items =>
          option_map
            (Details (mkProps name value depth isLast) ArrayKind
               (depth <? 2)%Z (shownName name)
               (sizeLabelOf (Array_length items) "item" "items"))
            (allOf
               (Array_map
                  (fun childValue index =>
                     option_map (pair (itemKey name index))
                       (JsonNodeWithin frames' (Some (indexLabel index))
                          childValue (depth + 1)
                          ((index =? Array_length items - 1)%Z)))
                  items))
      | _ =>
          Some (Row (mkProps name value depth isLast) (shownName name)
                  (JsonPrimitive value) (negb isLast))
      end
  end.

(** ** Sample values *)

(** [{"a":[1,2,{"b":3}]}]. *)
Definition sample_nested : JsonValue :=
  JObject
    [("a", JArray [JNumber (number_of_Z 1); JNumber (number_of_Z 2);
                   JObject [("b", JNumber (number_of_Z 3))]])].

(** The members of [{"b":1,"1":2}] as written: the second key is an array
    index. *)
Definition sample_index_members : list (string * JsonValue) :=
  [("b", JNumber (number_of_Z 1)); ("1", JNumber (number_of_Z 2))].

Definition sample_index_key : JsonValue := objectOf sample_index_members.

(** The members of [{"b":1,"a":2}] as written. *)
Definition sample_plain_members : list (string * JsonValue) :=
  [("b", JNumber (number_of_Z 1)); ("a", JNumber (number_of_Z 2))].

(** A decoder that accepts the text [null] and nothing else. *)
Definition null_only_parse (text : string) : ParseOutcome :=
  if String.eqb text "null" then Parsed JNull
  else Threw (ErrorObject "Unexpected token").

Definition sample_state : HomeState :=
  {| jsonText := "{";
     data := sample_nested;
     activeLabel := "Sample dataset";
     error := None;
     updatedAt := 0 |}.

(** ** Specification predicates *)

(** The first invariant of the statistics record. *)
Definition balanced (s : JsonStats) : Prop :=
  nodeCount s = objectCount s + arrayCount s + primitiveCount s.

(** [m] is the greatest element of [l]. *)
Definition greatest (m : Z) (l : list Z) : Prop :=
  In m l /\ Forall (fun x => x <= m) l.

(** A root that is [null], a boolean, a number or a string. *)
Definition isPrimitive (v : JsonValue) : bool :=
  match v with
  | JArray _ | JObject _ => false
  | _ => true
  end.

(** A node together with the value and the depth it was rendered from. *)
Definition labelled (t : TreeNode) : option string * JsonValue :=
  (name (propsOf t), value (propsOf t)).

(** The shape of one node against the value in its props: every child is
    one level deeper; the children of an object are its entries, in the
    order of [Object.entries], each named by its key; the children of an
    array are its elements, in index order, the one at index [i] named
    ["[i]"]; a primitive is a row without children. *)
Definition mirrorsHere (n : TreeNode) : Prop :=
  Forall (fun c => depth (propsOf c) = depth (propsOf n) + 1) (childrenOf n) /\
  match value (propsOf n) with
  | JObject props =>
      kindOf n = Some ObjectKind /\
      map labelled (childrenOf n) =
      map (fun kv => (Some (fst kv), snd kv)) (Object_entries props)
  | JArray items =>
      kindOf n = Some ArrayKind /\
      map labelled (childrenOf n) =
      map (fun iv => (Some (indexLabel (Z.of_nat (fst iv))), snd iv))
        (combine (seq 0 (List.length items)) items)
  | _ => kindOf n = None /\ childrenOf n = []
  end.

(** The names of the children of the root, in order. *)
Definition childNames (t : TreeNode) : list (option string) :=
  map (fun c => name (propsOf c)) (childrenOf t).

(** The [open] attribute against the depth: a container is open exactly
    when its depth is below 2; a primitive row carries no such flag. *)
Definition openPolicy (n : TreeNode) : Prop :=
  match defaultOpen n with
  | Some open => (open = true <-> depth (propsOf n) < 2) /\ kindOf n <> None
  | None => kindOf n = None
  end.

(** [isLast] against the position among the siblings: set on the child at
    position [i] exactly when [i] is the last position. *)
Definition lastFlagsHere (n : TreeNode) : Prop :=
  forall (i : nat) (c : TreeNode),
    nth_error (childrenOf n) i = Some c ->
    (isLast (propsOf c) = true <-> S i = List.length (childrenOf n)).

Definition isArrayIndex (key : string) : bool :=
  match array_index key with Some _ => true | None => false end.

(** Both keys are array indices and the first is the smaller. *)
Definition indexBefore (a b : string * JsonValue) : Prop :=
  match array_index (fst a), array_index (fst b) with
  | Some i, Some j => (i < j)%N
  | _, _ => False
  end.

(** [entries] is [members] in own-property order: the members whose key is
    an array index, by ascending index, then the other members in the order
    in which they were written. *)
Definition ownPropertyOrder (members entries : list (string * JsonValue))
  : Prop :=
  exists indexed,
    entries =
      (indexed ++ filter (fun kv => negb (isArrayIndex (fst kv))) members)%list
    /\ Permutation indexed (filter (fun kv => isArrayIndex (fst kv)) members)
    /\ StronglySorted indexBefore indexed.

(** A tree that [JsonNode] returns for some props. *)
Definition rendered (n : TreeNode) : Prop :=
  exists nm v d l, n = JsonNode nm v d l.

(** ** json-tree.tsx: the type guards *)

(** [typeof value]. *)
Definition typeof (value : JsonValue) : string :=
  match value with
  | JString _ => "string"
  | JNumber _ => "number"
  | JBoolean _ => "boolean"
  | JNull | JArray _ | JObject _ => "object"
  end.

(** [value === null]. *)
Definition isNull (value : JsonValue) : bool :=
  match value with JNull => true | _ => false end.

Definition Array_isArray (value : JsonValue) : bool :=
  match value with JArray _ => true | _ => false end.

Definition isObject (value : JsonValue) : bool :=
  String.eqb (typeof value) "object" && negb (isNull value)
  && negb (Array_isArray value).

Definition isArray (value : JsonValue) : bool := Array_isArray value.

(** ** page.tsx: the handlers of [Home] *)

(** Of the selected file the handler reads [file.name] only. *)
Record File : Type := mkFile { file_name : string }.

(** How the [FileReader] ends: [onload] with [reader.result], or
    [onerror]. *)
Inductive ReadOutcome : Type :=
| ReadDone (result : option string)
| ReadError.

Definition setJsonText (s : HomeState) (text : string) : HomeState :=
  {| jsonText := text; data := data s; activeLabel := activeLabel s;
     error := error s; updatedAt := updatedAt s |}.

Definition setError (s : HomeState) (e : option string) : HomeState :=
  {| jsonText := jsonText s; data := data s; activeLabel := activeLabel s;
     error := e; updatedAt := updatedAt s |}.

(** What the user does; a file input is taken at the moment its reader
    ends (neither callback reads the state). *)
Inductive HomeEvent : Type :=
| TextChanged (text : string)
| ParseClicked
| SampleClicked
| FileInput (files : option (list File)) (outcome : ReadOutcome).

Section Handlers.
Variable JSON_parse : string -> ParseOutcome.
(** [JSON.stringify(sampleData, null, 2)] and [sampleData]. *)
Variable sampleText : string.
Variable sampleData : JsonValue.

(** [useState] initial values; [t0] is the time of the first render. *)
Definition initialState (t0 : Z) : HomeState :=
  {| jsonText := sampleText; data := sampleData;
     activeLabel := "Sample dataset"; error := None; updatedAt := t0 |}.

(** [handleFileUpload], with the reader's callback applied: without a
    first file it returns at once. *)
Definition handleFileUpload (now : Z) (s : HomeState)
  (files : option (list File)) (outcome : ReadOutcome) : HomeState :=
  match files with
  | Some (file :: _) =>
      match outcome with
      | ReadDone result =>
          let text := match result with Some r => r | None => EmptyString end in
          parseAndLoad JSON_parse now (setJsonText s text) text
            (file_name file)
      | ReadError => setError s (Some "Unable to read the selected file.")
      end
  | _ => s
  end.

Definition handleUseSample (now : Z) (s : HomeState) : HomeState :=
  parseAndLoad JSON_parse now (setJsonText s sampleText) sampleText
    "Sample dataset".

(** One event at time [now]. *)
Definition step (s : HomeState) (timed : Z * HomeEvent) : HomeState :=
  let now := fst timed in
  match snd timed with
  | TextChanged text => setJsonText s text
  | ParseClicked => handleTextParse JSON_parse now s
  | SampleClicked => handleUseSample now s
  | FileInput files outcome => handleFileUpload now s files outcome
  end.

Definition run (events : list (Z * HomeEvent)) (s : HomeState) : HomeState :=
  fold_left step events s.
End Handlers.

(** [error ? <p>{error}</p> : hint]: what the banner shows; the empty
    string is falsy. *)
Definition errorBanner (s : HomeState) : option string :=
  match error s with
  | Some m => if String.eqb m EmptyString then None else Some m
  | None => None
  end.

(** ** Further observations *)

(** The React keys of the children. *)
Definition keysOf (t : TreeNode) : list string :=
  match t with
  | Details _ _ _ _ _ children => map fst children
  | Row _ _ _ _ => []
  end.

(** The trailing comma; only a primitive row can have one. *)
Definition commaOf (t : TreeNode) : option bool :=
  match t with
  | Details _ _ _ _ _ _ => None
  | Row _ _ _ comma => Some comma
  end.

Definition sizeLabelIn (t : TreeNode) : option string :=
  match t with
  | Details _ _ _ _ sizeLabel _ => Some sizeLabel
  | Row _ _ _ _ => None
  end.

(** The name as displayed. *)
Definition shownIn (t : TreeNode) : option string :=
  match t with
  | Details _ _ _ shown _ _ => shown
  | Row _ shown _ _ => shown
  end.

Definition contentOf (t : TreeNode) : option PrimitiveSpan :=
  match t with
  | Details _ _ _ _ _ _ => None
  | Row _ _ content _ => Some content
  end.

(** The number of nodes of a tree whose kind satisfies [q]. *)
Definition tally (q : option ContainerKind -> bool) (ns : list TreeNode) : Z :=
  Z.of_nat (List.length (filter (fun n => q (kindOf n)) ns)).

Definition isKind (k : option ContainerKind) (k' : option ContainerKind)
  : bool :=
  match k, k' with
  | Some ObjectKind, Some ObjectKind => true
  | Some ArrayKind, Some ArrayKind => true
  | None, None => true
  | _, _ => false
  end.



(** No object anywhere in the value has the same key twice. *)
Fixpoint distinctKeys (v : JsonValue) : Prop :=
  match v with
  | JArray items => fold_right (fun c rest => distinctKeys c /\ rest) True items
  | JObject props =>
      NoDup (map fst props) /\
      fold_right (fun kv rest => distinctKeys (snd kv) /\ rest) True props
  | _ => True
  end.


(** [String(n)] read back. *)
Definition Number_parse (s : string) : option Z :=
  option_map Z.of_int (NilZero.int_of_string s).

(** A decoder for the texts [null] and [[]]. *)
Definition tiny_parse (text : string) : ParseOutcome :=
  if String.eqb text "null" then Parsed JNull
  else if String.eqb text "[]" then Parsed (JArray [])
  else Threw (ErrorObject "Unexpected token").

(** * Properties *)

(** ** The statistics fold *)

(** The object branch in the source's own form. *)
Lemma buildStats_object (props : list (string * JsonValue)) (d : Z) :
  buildStats (JObject props) d =
  Array_reduce
    (fun acc entry => accumulate acc (buildStats entry (d + 1)))
    {| nodeCount := 1; objectCount := 1; arrayCount := 0;
       primitiveCount := 0; maxDepth := d |}
    (Object_values props).
Proof.
  cbn [buildStats]. unfold Array_reduce, Object_values.
  generalize (mkStats 1 1 0 0 d).
  induction props as [|kv props IH]; intros acc; [reflexivity|].
  cbn [map fold_left]. apply IH.
Qed.

Lemma sample_nested_is_literal :
  sample_nested =
  objectOf
    [("a", JArray [JNumber (number_of_Z 1); JNumber (number_of_Z 2);
                   objectOf [("b", JNumber (number_of_Z 3))]])].
Proof. reflexivity. Qed.

(** C1, as the specification words it, fails: on [{"a":[1,2,{"b":3}]}] the
    statistics are not 6 nodes, 2 objects, 1 array, 3 primitives with a
    maximal depth of 2, because the number 3 lies at depth 3. *)
Lemma sample_nested_maxDepth_not_2 :
  maxDepth (buildStats sample_nested 0) = 3 /\
  buildStats sample_nested 0 <> mkStats 6 2 1 3 2.
Proof. split; [reflexivity | discriminate]. Qed.

(** C1, amended: on [{"a":[1,2,{"b":3}]}] at depth 0, [buildStats] returns
    nodeCount 6, objectCount 2, arrayCount 1, primitiveCount 3 and
    maxDepth 3. *)
Theorem sample_nested_stats :
  buildStats sample_nested 0 =
  {| nodeCount := 6; objectCount := 2; arrayCount := 1;
     primitiveCount := 3; maxDepth := 3 |}.
Proof. reflexivity. Qed.

Lemma accumulate_balanced (acc s : JsonStats) :
  balanced acc -> balanced s -> balanced (accumulate acc s).
Proof. unfold balanced, accumulate; cbn; lia. Qed.

(** A reduction keeps the invariant when every entry's statistics have it;
    [proj] is the identity for an array and [snd] for an object. *)
Lemma reduce_balanced {A : Type} (proj : A -> JsonValue) (d : Z) (l : list A) :
  Forall (fun x => balanced (buildStats (proj x) d)) l ->
  forall acc, balanced acc ->
  balanced
    (Array_reduce (fun acc x => accumulate acc (buildStats (proj x) d)) acc l).
Proof.
  unfold Array_reduce.
  induction 1 as [|x l Hx _ IH]; intros acc Hacc; cbn [fold_left]; [assumption|].
  apply IH, accumulate_balanced; assumption.
Qed.

(** C2: for every value (and every starting depth) the statistics satisfy
    nodeCount = objectCount + arrayCount + primitiveCount. *)
Theorem buildStats_balanced (v : JsonValue) (d : Z) :
  nodeCount (buildStats v d) =
  objectCount (buildStats v d) + arrayCount (buildStats v d)
  + primitiveCount (buildStats v d).
Proof.
  change (balanced (buildStats v d)). revert d.
  induction v as [s|n|b| |items IH|props IH] using JsonValue_ind; intros d;
    try reflexivity; cbn [buildStats].
  - apply (reduce_balanced (fun x => x)); [|reflexivity].
    eapply Forall_impl; [|exact IH]. intros x Hx; apply Hx.
  - apply (reduce_balanced snd); [|reflexivity].
    eapply Forall_impl; [|exact IH]. intros x Hx; apply Hx.
Qed.

(** *** The maximal depth *)

Lemma greatest_singleton (d : Z) : greatest d [d].
Proof.
  split; [left; reflexivity|]. constructor; [lia | constructor].
Qed.

Lemma greatest_app (a b : Z) (l1 l2 : list Z) :
  greatest a l1 -> greatest b l2 -> greatest (Z.max a b) (l1 ++ l2).
Proof.
  intros [Ha Hl1] [Hb Hl2]. split.
  - apply in_or_app.
    destruct (Z.max_spec a b) as [[_ ->]|[_ ->]]; [right|left]; assumption.
  - apply Forall_app; split;
      [eapply Forall_impl; [|exact Hl1] | eapply Forall_impl; [|exact Hl2]];
      cbn; intros; lia.
Qed.

Lemma greatest_unique (a b : Z) (l : list Z) :
  greatest a l -> greatest b l -> a = b.
Proof.
  intros [Ha Hla] [Hb Hlb]. rewrite Forall_forall in Hla, Hlb.
  apply Hlb in Ha. apply Hla in Hb. lia.
Qed.

(** The reduction of [buildStats] over the children, started from an
    accumulator whose [maxDepth] is the greatest of the depths seen so far,
    ends with the greatest of those and of all the children's depths. *)
Lemma reduce_greatest {A : Type} (proj : A -> JsonValue) (d : Z) (l : list A) :
  Forall (fun x => greatest (maxDepth (buildStats (proj x) d))
                     (nodeDepths (proj x) d)) l ->
  forall acc seen, greatest (maxDepth acc) seen ->
  greatest
    (maxDepth
       (Array_reduce (fun acc x => accumulate acc (buildStats (proj x) d))
          acc l))
    (seen ++ flat_map (fun x => nodeDepths (proj x) d) l).
Proof.
  unfold Array_reduce.
  induction 1 as [|x l Hx _ IH]; intros acc seen Hacc; cbn [fold_left flat_map].
  - rewrite app_nil_r. assumption.
  - rewrite app_assoc. apply IH. cbn [accumulate maxDepth].
    apply greatest_app; assumption.
Qed.

Lemma buildStats_greatest (v : JsonValue) (d : Z) :
  greatest (maxDepth (buildStats v d)) (nodeDepths v d).
Proof.
  revert d.
  induction v as [s|n|b| |items IH|props IH] using JsonValue_ind; intros d;
    try apply greatest_singleton; cbn [buildStats nodeDepths].
  - apply (reduce_greatest (fun x => x) (d + 1) items
             ltac:(eapply Forall_impl; [|exact IH]; intros x Hx; apply Hx)
             _ [d]).
    apply greatest_singleton.
  - apply (reduce_greatest snd (d + 1) props
             ltac:(eapply Forall_impl; [|exact IH]; intros x Hx; apply Hx)
             _ [d]).
    apply greatest_singleton.
Qed.

(** C3: with the root at depth 0, [maxDepth] is the greatest depth among the
    root and all its descendants (it is the depth of some node, and no node
    is deeper), a child being one level below its container; containers
    count, so that an empty container at depth [d] gives [maxDepth = d]. *)
Theorem buildStats_maxDepth (v : JsonValue) :
  (In (maxDepth (buildStats v 0)) (nodeDepths v 0) /\
   Forall (fun x => x <= maxDepth (buildStats v 0)) (nodeDepths v 0)) /\
  (forall d : Z,
      maxDepth (buildStats (JArray []) d) = d /\
      maxDepth (buildStats (JObject []) d) = d).
Proof.
  split; [apply buildStats_greatest | intros d; split; reflexivity].
Qed.

(** C4: the empty object and the empty array are one node of their own
    kind, with [maxDepth] their own depth. *)
Theorem buildStats_empty_containers :
  buildStats (JObject []) 0 =
    {| nodeCount := 1; objectCount := 1; arrayCount := 0;
       primitiveCount := 0; maxDepth := 0 |} /\
  buildStats (JArray []) 0 =
    {| nodeCount := 1; objectCount := 0; arrayCount := 1;
       primitiveCount := 0; maxDepth := 0 |} /\
  (forall d : Z,
      buildStats (JObject []) d = mkStats 1 1 0 0 d /\
      buildStats (JArray []) d = mkStats 1 0 1 0 d).
Proof. repeat split. Qed.

(** C5: a primitive root, [null] included, gives one node, one primitive,
    no object, no array, and [maxDepth] 0. *)
Theorem buildStats_primitive (v : JsonValue) :
  isPrimitive v = true ->
  buildStats v 0 =
    {| nodeCount := 1; objectCount := 0; arrayCount := 0;
       primitiveCount := 1; maxDepth := 0 |}.
Proof. destruct v; intros H; try reflexivity; discriminate H. Qed.

Lemma buildStats_primitive_witness :
  isPrimitive JNull = true /\
  buildStats JNull 0 = mkStats 1 0 0 1 0 /\
  buildStats (JBoolean false) 0 = mkStats 1 0 0 1 0 /\
  buildStats (JNumber (number_of_Z 0)) 0 = mkStats 1 0 0 1 0 /\
  buildStats (JString EmptyString) 0 = mkStats 1 0 0 1 0.
Proof.
  exact (conj eq_refl
           (conj (buildStats_primitive JNull eq_refl)
              (conj (buildStats_primitive (JBoolean false) eq_refl)
                 (conj (buildStats_primitive (JNumber (number_of_Z 0)) eq_refl)
                    (buildStats_primitive (JString EmptyString) eq_refl))))).
Defined.

(** ** [Array.prototype.map] with the index *)

Section Array_map_facts.
Context {A B : Type}.

Lemma Array_map_from_length (f : A -> Z -> B) (l : list A) (i : Z) :
  List.length (Array_map_from f i l) = List.length l.
Proof.
  revert i; induction l as [|x l IH]; intros i; cbn; [|rewrite IH];
    reflexivity.
Qed.

Lemma Array_map_from_nth (f : A -> Z -> B) (l : list A) (i : Z) (k : nat) :
  nth_error (Array_map_from f i l) k =
  option_map (fun x => f x (i + Z.of_nat k)) (nth_error l k).
Proof.
  revert i k; induction l as [|x l IH]; intros i [|k]; cbn [Array_map_from nth_error option_map];
    try reflexivity.
  - now rewrite Z.add_0_r.
  - rewrite IH. destruct (nth_error l k); cbn; [|reflexivity].
    do 2 f_equal. lia.
Qed.

Lemma Array_map_from_ext (f g : A -> Z -> B) (l : list A) (i : Z) :
  (forall x j, f x j = g x j) ->
  Array_map_from f i l = Array_map_from g i l.
Proof.
  intros E; revert i; induction l as [|x l IH]; intros i; cbn;
    [|rewrite E, IH]; reflexivity.
Qed.

Lemma Array_map_from_const (g : A -> B) (l : list A) (i : Z) :
  Array_map_from (fun x _ => g x) i l = map g l.
Proof.
  revert i; induction l as [|x l IH]; intros i; cbn; [|rewrite IH];
    reflexivity.
Qed.

Lemma Array_map_from_seq (f : A -> Z -> B) (l : list A) (s : nat) :
  Array_map_from f (Z.of_nat s) l =
  map (fun iv => f (snd iv) (Z.of_nat (fst iv)))
    (combine (seq s (List.length l)) l).
Proof.
  revert s; induction l as [|x l IH]; intros s; cbn; [reflexivity|].
  f_equal. rewrite <- IH. f_equal. lia.
Qed.

Lemma Forall_Array_map_from (P : B -> Prop) (f : A -> Z -> B) (l : list A)
  (i : Z) :
  (forall x j, P (f x j)) -> Forall P (Array_map_from f i l).
Proof.
  intros H; revert i; induction l as [|x l IH]; intros i; cbn;
    constructor; auto.
Qed.
End Array_map_facts.

Lemma map_Array_map_from {A B C : Type} (g : B -> C) (f : A -> Z -> B)
  (l : list A) (i : Z) :
  map g (Array_map_from f i l) = Array_map_from (fun x j => g (f x j)) i l.
Proof.
  revert i; induction l as [|x l IH]; intros i; cbn; [|rewrite IH];
    reflexivity.
Qed.

(** ** The rendered tree *)

Lemma propsOf_JsonNode (nm : option string) (v : JsonValue) (d : Z) (l : bool) :
  propsOf (JsonNode nm v d l) = mkProps nm v d l.
Proof. destruct v; reflexivity. Qed.

(** The children of a node, without their keys. *)
Lemma childrenOf_JsonNode (nm : option string) (v : JsonValue) (d : Z)
  (l : bool) :
  childrenOf (JsonNode nm v d l) =
  match v with
  | JObject props =>
      Array_map
        (fun entry index =>
           JsonNode (Some (fst entry)) (snd entry) (d + 1)
             ((index =? Array_length props - 1)%Z))
        props
  | JArray items =>
      Array_map
        (fun childValue index =>
           JsonNode (Some (indexLabel index)) childValue (d + 1)
             ((index =? Array_length items - 1)%Z))
        items
  | _ => []
  end.
Proof.
  destruct v; try reflexivity; cbn [JsonNode childrenOf]; unfold Array_map;
    apply map_Array_map_from.
Qed.

(** Whatever holds of the trees [f] builds holds of every node below a
    container whose children [f] built. *)
Lemma Forall_nodes_children {A : Type} (P : TreeNode -> Prop)
  (f : A -> Z -> string * TreeNode) (l : list A) :
  Forall (fun x => forall i, Forall P (nodes (snd (f x i)))) l ->
  forall i,
    Forall P (flat_map (fun kc => nodes (snd kc)) (Array_map_from f i l)).
Proof.
  induction 1 as [|x l Hx _ IH]; intros i; cbn [Array_map_from flat_map].
  - constructor.
  - apply Forall_app; split; [apply Hx | apply IH].
Qed.

(** Every node of a rendered tree is itself a rendered tree. *)
Lemma nodes_rendered (v : JsonValue) :
  forall nm d l, Forall rendered (nodes (JsonNode nm v d l)).
Proof.
  induction v as [s|n|b| |items IH|props IH] using JsonValue_ind; intros nm d l;
    match goal with
    | |- Forall rendered (nodes (JsonNode _ ?v _ _)) =>
        cbn [JsonNode nodes]; constructor;
        [exists nm, v, d, l; reflexivity | try constructor]
    end.
  - apply Forall_nodes_children.
    eapply Forall_impl; [|exact IH]. intros x Hx i. apply Hx.
  - apply Forall_nodes_children.
    eapply Forall_impl; [|exact IH]. intros x Hx i. apply Hx.
Qed.

(** A property of every rendered tree is a property of every node. *)
Lemma Forall_nodes_JsonNode (P : TreeNode -> Prop) :
  (forall nm v d l, P (JsonNode nm v d l)) ->
  forall nm v d l, Forall P (nodes (JsonNode nm v d l)).
Proof.
  intros H nm v d l. eapply Forall_impl; [|apply nodes_rendered].
  intros n (nm' & v' & d' & l' & ->). apply H.
Qed.

Lemma openPolicy_JsonNode (nm : option string) (v : JsonValue) (d : Z)
  (l : bool) : openPolicy (JsonNode nm v d l).
Proof.
  destruct v; try reflexivity; unfold openPolicy;
    cbn [JsonNode defaultOpen propsOf depth kindOf];
    (split; [apply Z.ltb_lt | discriminate]).
Qed.

(** C6: in the tree built for any value, every container's [open]
    attribute is set if and only if its depth is below 2 (a primitive row
    has no such attribute), so a container at depth 2 starts collapsed. *)
Theorem JsonTree_defaultOpen (v : JsonValue) (rootLabel : option string) :
  Forall openPolicy (nodes (JsonTree v rootLabel)).
Proof. apply Forall_nodes_JsonNode, openPolicy_JsonNode. Qed.

(** In [{"a":[1,2,{"b":3}]}] the inner object is at depth 2 and closed,
    while the root and the array are open. *)
Lemma sample_nested_open_flags :
  map (fun n => (depth (propsOf n), defaultOpen n))
    (nodes (JsonTree sample_nested None)) =
  [(0, Some true); (1, Some true); (2, None); (2, None); (2, Some false);
   (3, None)].
Proof. reflexivity. Qed.

(** *** Shape *)

Lemma mirrorsHere_JsonNode (nm : option string) (v : JsonValue) (d : Z)
  (l : bool) : mirrorsHere (JsonNode nm v d l).
Proof.
  unfold mirrorsHere.
  rewrite childrenOf_JsonNode, propsOf_JsonNode. cbn [depth value]. split.
  - destruct v; try constructor; apply Forall_Array_map_from; intros x j;
      rewrite propsOf_JsonNode; reflexivity.
  - destruct v; try (split; reflexivity); (split; [reflexivity|]);
      unfold Array_map; rewrite map_Array_map_from.
    + rewrite (Array_map_from_ext _
                 (fun x j => (Some (indexLabel j), x)))
        by (intros x j; unfold labelled; rewrite propsOf_JsonNode;
            reflexivity).
      exact (Array_map_from_seq (fun x j => (Some (indexLabel j), x))
               items 0%nat).
    + rewrite (Array_map_from_ext _
                 (fun x _ => (Some (fst x), snd x)))
        by (intros x j; unfold labelled; rewrite propsOf_JsonNode;
            reflexivity).
      exact (Array_map_from_const (fun x => (Some (fst x), snd x)) props 0).
Qed.

(** *** Property order *)

Lemma hasOwn_fresh (props : list (string * JsonValue)) (key : string) :
  ~ In key (map fst props) -> hasOwn props key = false.
Proof.
  induction props as [|kv props IH]; cbn; intros H; [reflexivity|].
  apply orb_false_intro.
  - apply String.eqb_neq. intros E. apply H. left. exact E.
  - apply IH. intros I. apply H. right. exact I.
Qed.

(** Defining a fresh key that is not an array index appends it. *)
Lemma defineProperty_fresh_name (props : list (string * JsonValue))
  (key : string) (v : JsonValue) :
  ~ In key (map fst props) -> array_index key = None ->
  defineProperty props key v = (props ++ [(key, v)])%list.
Proof.
  intros F N. unfold defineProperty. rewrite (hasOwn_fresh _ _ F), N.
  reflexivity.
Qed.

Lemma defineProperty_fresh_index (props : list (string * JsonValue))
  (key : string) (v : JsonValue) (i : N) :
  ~ In key (map fst props) -> array_index key = Some i ->
  defineProperty props key v = insertIndex props i key v.
Proof.
  intros F K. unfold defineProperty. rewrite (hasOwn_fresh _ _ F), K.
  reflexivity.
Qed.

Lemma isArrayIndex_true (key : string) (i : N) :
  array_index key = Some i -> isArrayIndex key = true.
Proof. unfold isArrayIndex. now intros ->. Qed.

Lemma isArrayIndex_false (key : string) :
  array_index key = None -> isArrayIndex key = false.
Proof. unfold isArrayIndex. now intros ->. Qed.

Lemma define_members_in_order (members acc : list (string * JsonValue)) :
  NoDup (map fst (acc ++ members)) ->
  Forall (fun kv => array_index (fst kv) = None) members ->
  fold_left (fun props kv => defineProperty props (fst kv) (snd kv))
    members acc = (acc ++ members)%list.
Proof.
  revert acc; induction members as [|[k v] members IH]; intros acc D N;
    cbn [fold_left fst snd].
  - now rewrite app_nil_r.
  - inversion N as [|? ? Nk Nrest]; subst. cbn [fst] in Nk.
    rewrite defineProperty_fresh_name; [| |exact Nk].
    + change ((k, v) :: members) with ([(k, v)] ++ members)%list in D |- *.
      rewrite app_assoc in D |- *. apply IH; assumption.
    + rewrite map_app in D. cbn [map fst] in D.
      apply NoDup_remove_2 in D. intros I. apply D.
      apply in_or_app. left. exact I.
Qed.

(** Members without array-index keys and without repetition are enumerated
    in the order in which they were written. *)
Lemma objectOf_written_order (members : list (string * JsonValue)) :
  NoDup (map fst members) ->
  Forall (fun kv => array_index (fst kv) = None) members ->
  objectOf members = JObject members.
Proof.
  intros D N. unfold objectOf. f_equal.
  apply (define_members_in_order members []); assumption.
Qed.

Local Close Scope string_scope.

(** An array-index key is the decimal form of its index. *)
Lemma array_index_canonical (key : string) (i : N) :
  array_index key = Some i -> key = NilZero.string_of_uint (N.to_uint i).
Proof.
  unfold array_index. destruct (NilEmpty.uint_of_string key) as [u|];
    [|discriminate].
  destruct (String.eqb _ key) eqn:E; cbn [andb]; [|discriminate].
  destruct (N.leb _ _); [|discriminate].
  intros [= <-]. symmetry. apply String.eqb_eq, E.
Qed.

Lemma indexBefore_trans (a b c : string * JsonValue) :
  indexBefore a b -> indexBefore b c -> indexBefore a c.
Proof.
  unfold indexBefore.
  destruct (array_index (fst a)), (array_index (fst b)),
    (array_index (fst c)); try tauto. lia.
Qed.

(** A fresh array-index key lands in the run of indexed properties, which
    stays ascending; the named properties after it are untouched. *)
Lemma insertIndex_ascending (names : list (string * JsonValue)) (i : N)
  (key : string) (v : JsonValue) :
  array_index key = Some i ->
  Forall (fun kv => isArrayIndex (fst kv) = false) names ->
  forall indexed,
    ~ In key (map fst indexed) ->
    StronglySorted indexBefore indexed ->
    Forall (fun kv => isArrayIndex (fst kv) = true) indexed ->
    exists indexed',
      insertIndex (indexed ++ names) i key v = (indexed' ++ names)%list /\
      Permutation indexed' (indexed ++ [(key, v)]) /\
      StronglySorted indexBefore indexed' /\
      Forall (fun kv => isArrayIndex (fst kv) = true) indexed'.
Proof.
  intros K N. unfold isArrayIndex in *.
  induction indexed as [|a indexed IH]; intros F S I.
  - exists [(key, v)]. cbn [app]. repeat split.
    + destruct N as [|b names Nb _]; cbn [insertIndex]; [reflexivity|].
      destruct (array_index (fst b)); [discriminate Nb | reflexivity].
    + repeat constructor.
    + repeat constructor.
    + repeat constructor. cbn [fst]. now rewrite K.
  - inversion S as [|? ? S' Ha]; subst. inversion I as [|? ? Ia I']; subst.
    cbn [app insertIndex].
    destruct (array_index (fst a)) as [j|] eqn:Ej; [|discriminate Ia].
    assert (j <> i) as Hji.
    { intros ->. apply F. left.
      rewrite (array_index_canonical _ _ Ej), (array_index_canonical _ _ K).
      reflexivity. }
    destruct (N.ltb_spec j i) as [Lt|Ge].
    + destruct (IH (fun In' => F (or_intror In')) S' I')
        as (indexed' & E & P & S'' & I'').
      exists (a :: indexed'). rewrite E. repeat split.
      * cbn [app]. apply perm_skip, P.
      * constructor; [exact S''|].
        eapply Permutation_Forall; [apply Permutation_sym, P|].
        apply Forall_app; split; [exact Ha|]. repeat constructor.
        unfold indexBefore. cbn [fst]. now rewrite Ej, K.
      * constructor; [now rewrite Ej | exact I''].
    + exists ((key, v) :: a :: indexed). repeat split.
      * apply (Permutation_cons_append (a :: indexed) (key, v)).
      * assert (indexBefore (key, v) a) as Ba.
        { unfold indexBefore. cbn [fst]. rewrite K, Ej. lia. }
        constructor; [exact S|]. constructor; [exact Ba|].
        eapply Forall_impl; [|exact Ha]. intros b.
        apply indexBefore_trans, Ba.
      * constructor; [cbn [fst]; now rewrite K | exact I].
Qed.

(** Defining members one after the other, starting from properties already
    in own-property order. *)
Lemma define_members_order (members : list (string * JsonValue)) :
  forall indexed names,
    NoDup (map fst ((indexed ++ names) ++ members)) ->
    StronglySorted indexBefore indexed ->
    Forall (fun kv => isArrayIndex (fst kv) = true) indexed ->
    Forall (fun kv => isArrayIndex (fst kv) = false) names ->
    exists indexed',
      fold_left (fun props kv => defineProperty props (fst kv) (snd kv))
        members (indexed ++ names)
      = (indexed'
         ++ names
         ++ filter (fun kv => negb (isArrayIndex (fst kv))) members)%list
      /\ Permutation indexed'
           (indexed ++ filter (fun kv => isArrayIndex (fst kv)) members)
      /\ StronglySorted indexBefore indexed'.
Proof.
  induction members as [|[k v] members IH]; intros indexed names D S I N;
    cbn [fold_left filter fst snd].
  - exists indexed. rewrite !app_nil_r. repeat split; [reflexivity | exact S].
  - assert (~ In k (map fst (indexed ++ names))) as F.
    { rewrite map_app in D. cbn [map fst] in D.
      apply NoDup_remove_2 in D. intros In'. apply D, in_or_app.
      left. exact In'. }
    assert (NoDup (map fst ((indexed ++ names) ++ [(k, v)] ++ members)))
      as D' by exact D.
    rewrite app_assoc in D'.
    destruct (array_index k) as [i|] eqn:K.
    + rewrite (defineProperty_fresh_index _ _ _ _ F K).
      rewrite (isArrayIndex_true _ _ K). cbn [negb].
      destruct (insertIndex_ascending names i k v K N indexed)
        as (indexed1 & E & P & S1 & I1); [|exact S|exact I|].
      { intros In'. apply F. rewrite map_app. apply in_or_app. left.
        exact In'. }
      rewrite E.
      destruct (IH indexed1 names) as (indexed' & E' & P' & S');
        [|exact S1|exact I1|exact N|].
      { eapply Permutation_NoDup; [|exact D'].
        apply Permutation_map, Permutation_app_tail.
        rewrite <- app_assoc.
        transitivity (indexed ++ [(k, v)] ++ names)%list;
          [apply Permutation_app_head, Permutation_app_comm|].
        rewrite app_assoc. apply Permutation_app_tail, Permutation_sym, P. }
      exists indexed'. repeat split; [exact E'| |exact S'].
      rewrite P'. rewrite P, <- app_assoc. reflexivity.
    + rewrite (defineProperty_fresh_name _ _ _ F K).
      rewrite (isArrayIndex_false _ K). cbn [negb].
      rewrite <- app_assoc.
      destruct (IH indexed (names ++ [(k, v)])%list)
        as (indexed' & E' & P' & S'); [|exact S|exact I| |].
      { rewrite app_assoc. exact D'. }
      { apply Forall_app; split; [exact N|]. repeat constructor.
        unfold isArrayIndex. cbn [fst]. now rewrite K. }
      exists indexed'. rewrite <- app_assoc in E'.
      repeat split; [exact E'|exact P'|exact S'].
Qed.

(** Members without repetition are enumerated in own-property order. *)
Lemma objectOf_ownPropertyOrder (members : list (string * JsonValue)) :
  NoDup (map fst members) ->
  exists entries,
    objectOf members = JObject entries /\ ownPropertyOrder members entries.
Proof.
  intros D.
  destruct (define_members_order members [] [] D) as (indexed & E & P & S);
    try constructor.
  cbn [app] in E, P. eexists; split.
  - unfold objectOf. rewrite E. reflexivity.
  - exists indexed. repeat split; assumption.
Qed.

Local Open Scope string_scope.

(** C7, as the specification words it, fails: the object written
    [{"b":1,"1":2}] is rendered with the child named ["1"] before the child
    named ["b"], not in the order in which the keys were written. *)
Lemma children_not_in_written_order :
  childNames (JsonTree (objectOf sample_index_members) None)
    = [Some "1"; Some "b"] /\
  map (fun kv => Some (fst kv)) sample_index_members
    = [Some "b"; Some "1"] /\
  childNames (JsonTree (objectOf sample_index_members) None)
    <> map (fun kv => Some (fst kv)) sample_index_members.
Proof. repeat split. discriminate. Qed.

(** C7, amended: the tree built for any value mirrors the value: the root
    is at depth 0 and renders the value itself; at every node each child is
    one level deeper; the children of an object are its entries in the
    order of [Object.entries], each named by its key; the children of an
    array are its elements in index order, the one at index [i] named
    ["[i]"]; a primitive has no children.  For an object written with
    distinct keys, the order of [Object.entries] is: the members whose key
    is an array index, by ascending index, then the other members as
    written; so it is the written order whenever no key is an array
    index. *)
Theorem JsonTree_mirrors_value :
  (forall (v : JsonValue) (rootLabel : option string),
      value (propsOf (JsonTree v rootLabel)) = v /\
      depth (propsOf (JsonTree v rootLabel)) = 0 /\
      Forall mirrorsHere (nodes (JsonTree v rootLabel))) /\
  (forall (members : list (string * JsonValue)) (rootLabel : option string),
      NoDup (map fst members) ->
      exists entries,
        ownPropertyOrder members entries /\
        map labelled (childrenOf (JsonTree (objectOf members) rootLabel)) =
        map (fun kv => (Some (fst kv), snd kv)) entries) /\
  (forall (members : list (string * JsonValue)) (rootLabel : option string),
      NoDup (map fst members) ->
      Forall (fun kv => array_index (fst kv) = None) members ->
      map labelled (childrenOf (JsonTree (objectOf members) rootLabel)) =
      map (fun kv => (Some (fst kv), snd kv)) members).
Proof.
  split; [|split].
  - intros v rootLabel. unfold JsonTree. rewrite propsOf_JsonNode.
    repeat split. apply Forall_nodes_JsonNode, mirrorsHere_JsonNode.
  - intros members rootLabel D.
    destruct (objectOf_ownPropertyOrder members D) as (entries & -> & O).
    exists entries. split; [exact O|].
    apply (mirrorsHere_JsonNode _ (JObject entries)).
  - intros members rootLabel D N.
    rewrite (objectOf_written_order members D N).
    apply (mirrorsHere_JsonNode _ (JObject members)).
Qed.

Lemma JsonTree_mirrors_value_witness :
  map labelled (childrenOf (JsonTree (objectOf sample_plain_members) None)) =
  map (fun kv => (Some (fst kv), snd kv)) sample_plain_members.
Proof.
  apply (proj2 (proj2 JsonTree_mirrors_value) sample_plain_members None).
  - repeat constructor; cbn; intuition discriminate.
  - repeat constructor.
Defined.

(** *** Last sibling *)

Lemma lastFlagsHere_JsonNode (nm : option string) (v : JsonValue) (d : Z)
  (l : bool) : lastFlagsHere (JsonNode nm v d l).
Proof.
  unfold lastFlagsHere. rewrite childrenOf_JsonNode. intros i c.
  destruct v as [s|n|b| |items|props];
    try (destruct i; discriminate);
    unfold Array_map; rewrite Array_map_from_nth, Array_map_from_length;
    (destruct (nth_error _ i) as [x|] eqn:E; [|discriminate]);
    cbn [option_map]; intros [= <-]; rewrite propsOf_JsonNode; cbn [isLast];
    unfold Array_length; rewrite Z.eqb_eq; lia.
Qed.

(** C8: in the tree built for any value, a child has [isLast] set if and
    only if it is the final entry of its parent's child sequence, and the
    root has [isLast] set. *)
Theorem JsonTree_isLast (v : JsonValue) (rootLabel : option string) :
  isLast (propsOf (JsonTree v rootLabel)) = true /\
  Forall lastFlagsHere (nodes (JsonTree v rootLabel)).
Proof.
  unfold JsonTree. rewrite propsOf_JsonNode. split; [reflexivity|].
  apply Forall_nodes_JsonNode, lastFlagsHere_JsonNode.
Qed.

(** ** A failed decode *)

(** C9: when [JSON.parse] throws on the text, [parseAndLoad] leaves [data]
    as it was, and with it the statistics and the tree derived from it; the
    label and the time of the last load stay too, and only the error message
    is set. *)
Theorem parseAndLoad_failure (JSON_parse : string -> ParseOutcome) (now : Z)
  (s : HomeState) (text label : string) (err : Thrown) :
  JSON_parse text = Threw err ->
  data (parseAndLoad JSON_parse now s text label) = data s /\
  stats (parseAndLoad JSON_parse now s text label) = stats s /\
  renderedTree (parseAndLoad JSON_parse now s text label) = renderedTree s /\
  activeLabel (parseAndLoad JSON_parse now s text label) = activeLabel s /\
  updatedAt (parseAndLoad JSON_parse now s text label) = updatedAt s /\
  error (parseAndLoad JSON_parse now s text label) <> None.
Proof.
  intros E. unfold stats, renderedTree, parseAndLoad. rewrite E. cbn.
  repeat split. discriminate.
Qed.

Lemma parseAndLoad_failure_witness :
  data (parseAndLoad null_only_parse 7 sample_state "{" "Manual input")
    = data sample_state /\
  stats (parseAndLoad null_only_parse 7 sample_state "{" "Manual input")
    = stats sample_state.
Proof.
  pose proof (parseAndLoad_failure null_only_parse 7 sample_state "{"
                "Manual input" (ErrorObject "Unexpected token") eq_refl) as H.
  split; [exact (proj1 H) | exact (proj1 (proj2 H))].
Defined.

(** The same decoder on a text it accepts replaces the data. *)
Lemma parseAndLoad_success_example :
  data (parseAndLoad null_only_parse 7 sample_state "null" "Manual input")
    = JNull /\
  stats (parseAndLoad null_only_parse 7 sample_state "null" "Manual input")
    = mkStats 1 0 0 1 0.
Proof. split; reflexivity. Qed.

(** ** Totality *)

Lemma height_child_le {A : Type} (proj : A -> JsonValue) (l : list A) :
  Forall
    (fun x =>
       (height (proj x)
          <= fold_right (fun c h => Nat.max (height (proj c)) h) O l)%nat)
    l.
Proof.
  induction l as [|x l IH]; constructor; cbn [fold_right]; [lia|].
  eapply Forall_impl; [|exact IH]. cbn; intros; lia.
Qed.

(** With enough frames for every child, the children of a container are
    all within reach. *)
Lemma children_within {A : Type} (proj : A -> JsonValue) (Q : JsonValue -> nat -> Prop)
  (l : list A) (frames : nat) :
  Forall (fun x => forall n, (height (proj x) < n)%nat -> Q (proj x) n) l ->
  (fold_right (fun c h => Nat.max (height (proj c)) h) O l < frames)%nat ->
  Forall (fun x => Q (proj x) frames) l.
Proof.
  intros IH B. pose proof (height_child_le proj l) as H.
  rewrite Forall_forall in *. intros x I. apply IH; [exact I|].
  specialize (H x I). lia.
Qed.

Lemma reduce_within {A : Type} (proj : A -> JsonValue) (frames : nat) (d : Z)
  (l : list A) :
  Forall (fun x => buildStatsWithin frames (proj x) d
                   = Some (buildStats (proj x) d)) l ->
  forall acc,
    fold_left
      (fun (acc : option JsonStats) (entry : JsonValue) =>
         match acc with
         | Some acc' =>
             option_map (accumulate acc') (buildStatsWithin frames entry d)
         | None => None
         end)
      (map proj l) (Some acc)
    = Some (fold_left (fun acc x => accumulate acc (buildStats (proj x) d))
              l acc).
Proof.
  induction 1 as [|x l Hx _ IH]; intros acc; cbn [map fold_left];
    [reflexivity|].
  rewrite Hx. cbn [option_map]. apply IH.
Qed.

Lemma allOf_within {A : Type} (key : A -> Z -> string)
  (within : A -> Z -> option TreeNode) (node : A -> Z -> TreeNode)
  (l : list A) :
  Forall (fun x => forall i, within x i = Some (node x i)) l ->
  forall i,
    allOf (Array_map_from
             (fun x j => option_map (pair (key x j)) (within x j)) i l)
    = Some (Array_map_from (fun x j => (key x j, node x j)) i l).
Proof.
  induction 1 as [|x l Hx _ IH]; intros i; cbn [Array_map_from allOf];
    [reflexivity|].
  rewrite Hx. cbn [option_map]. rewrite IH. reflexivity.
Qed.

Lemma buildStats_within (v : JsonValue) :
  forall frames, (height v < frames)%nat ->
  forall d, buildStatsWithin frames v d = Some (buildStats v d).
Proof.
  induction v as [s|n|b| |items IH|props IH] using JsonValue_ind;
    intros [|frames] B d; try lia; try reflexivity;
    cbn [height] in B; apply PeanoNat.lt_S_n in B;
    cbn [buildStatsWithin buildStats]; unfold Array_reduce, Object_values.
  - rewrite <- (map_id items) at 1.
    apply (reduce_within (fun x => x)).
    apply (children_within (fun x => x)
             (fun x n => buildStatsWithin n x (d + 1)
                         = Some (buildStats x (d + 1)))); [|exact B].
    eapply Forall_impl; [|exact IH]. cbn. intros x Hx n Hn. apply Hx, Hn.
  - apply (reduce_within snd).
    apply (children_within snd
             (fun x n => buildStatsWithin n x (d + 1)
                         = Some (buildStats x (d + 1)))); [|exact B].
    eapply Forall_impl; [|exact IH]. cbn. intros x Hx n Hn. apply Hx, Hn.
Qed.

Lemma JsonNode_within (v : JsonValue) :
  forall frames, (height v < frames)%nat ->
  forall nm d l, JsonNodeWithin frames nm v d l = Some (JsonNode nm v d l).
Proof.
  induction v as [s|n|b| |items IH|props IH] using JsonValue_ind;
    intros [|frames] B nm d l; try lia; try reflexivity;
    cbn [height] in B; apply PeanoNat.lt_S_n in B;
    cbn [JsonNodeWithin JsonNode]; unfold Array_map, Object_entries.
  - rewrite (allOf_within
               (fun _ index => itemKey nm index)
               (fun x index =>
                  JsonNodeWithin frames (Some (indexLabel index)) x (d + 1)
                    ((index =? Array_length items - 1)%Z))
               (fun x index =>
                  JsonNode (Some (indexLabel index)) x (d + 1)
                    ((index =? Array_length items - 1)%Z)));
      [reflexivity|].
    pose proof (children_within (fun x => x)
                  (fun x n => forall nm d l,
                       JsonNodeWithin n nm x d l = Some (JsonNode nm x d l))
                  items frames IH B) as H.
    eapply Forall_impl; [|exact H]. cbn. intros x Hx i. apply Hx.
  - rewrite (allOf_within
               (fun entry _ => fst entry)
               (fun entry index =>
                  JsonNodeWithin frames (Some (fst entry)) (snd entry) (d + 1)
                    ((index =? Array_length props - 1)%Z))
               (fun entry index =>
                  JsonNode (Some (fst entry)) (snd entry) (d + 1)
                    ((index =? Array_length props - 1)%Z)));
      [reflexivity|].
    pose proof (children_within snd
                  (fun x n => forall nm d l,
                       JsonNodeWithin n nm x d l = Some (JsonNode nm x d l))
                  props frames IH B) as H.
    eapply Forall_impl; [|exact H]. cbn. intros x Hx i. apply Hx.
Qed.

(** C10: the traversal is total.  [buildStats] and [JsonNode] are defined
    for every value by recursion on the value alone, without a bound on
    depth or size; and run with a bounded stack, each returns that same
    result as soon as the frames exceed the height of the value. *)
Theorem traversal_total (v : JsonValue) (frames : nat) :
  (height v < frames)%nat ->
  forall (nm : option string) (d : Z) (l : bool),
    buildStatsWithin frames v d = Some (buildStats v d) /\
    JsonNodeWithin frames nm v d l = Some (JsonNode nm v d l).
Proof.
  intros B nm d l. split;
    [apply buildStats_within | apply JsonNode_within]; exact B.
Qed.

Lemma traversal_total_witness :
  (height sample_nested < 4)%nat /\
  buildStatsWithin 4 sample_nested 0 = Some (buildStats sample_nested 0) /\
  JsonNodeWithin 4 (Some "root") sample_nested 0 true
    = Some (JsonNode (Some "root") sample_nested 0 true).
Proof.
  split; [cbn; lia|].
  apply (traversal_total sample_nested 4); cbn; lia.
Defined.

(** One frame fewer than the height plus one is not enough. *)
Lemma sample_nested_needs_four_frames :
  height sample_nested = 3%nat /\ buildStatsWithin 3 sample_nested 0 = None.
Proof. split; reflexivity. Qed.

(** * Further properties *)

(** ** The statistics and the starting depth *)







(** ** Bounds *)




(** ** The statistics and the order of the children *)

Lemma accumulate_swap (a x y : JsonStats) :
  accumulate (accumulate a x) y = accumulate (accumulate a y) x.
Proof. unfold accumulate; cbn. f_equal; lia. Qed.

Lemma reduce_permutation {A : Type} (g : A -> JsonStats) (l l' : list A) :
  Permutation l l' ->
  forall acc,
    Array_reduce (fun acc x => accumulate acc (g x)) acc l
    = Array_reduce (fun acc x => accumulate acc (g x)) acc l'.
Proof.
  unfold Array_reduce.
  induction 1 as [|x l l' _ IH|x y l|l l' l'' _ IH1 _ IH2]; intros acc;
    cbn [fold_left].
  - reflexivity.
  - apply IH.
  - now rewrite accumulate_swap.
  - now rewrite IH1.
Qed.

(** X4: the statistics do not depend on the order of the children: two
    arrays with the same elements in another order, or two objects with the
    same properties in another order, have the same statistics. *)
Theorem buildStats_order_independent (items items' : list JsonValue)
  (props props' : list (string * JsonValue)) (d : Z) :
  Permutation items items' -> Permutation props props' ->
  buildStats (JArray items) d = buildStats (JArray items') d /\
  buildStats (JObject props) d = buildStats (JObject props') d.
Proof.
  intros Hi Hp. split; cbn [buildStats]; apply reduce_permutation; assumption.
Qed.

Lemma buildStats_order_independent_witness :
  buildStats (JArray [JNull; JArray []]) 0
    = buildStats (JArray [JArray []; JNull]) 0 /\
  buildStats (JObject [("a", JNull); ("b", JArray [])]) 0
    = buildStats (JObject [("b", JArray []); ("a", JNull)]) 0.
Proof.
  apply buildStats_order_independent; apply perm_swap.
Defined.

Lemma filter_partition_permutation {A : Type} (p : A -> bool) (l : list A) :
  Permutation (filter p l ++ filter (fun x => negb (p x)) l)%list l.
Proof.
  induction l as [|x l IH]; cbn [filter]; [constructor|].
  destruct (p x); cbn [negb app].
  - apply perm_skip, IH.
  - apply Permutation_sym, Permutation_cons_app, Permutation_sym, IH.
Qed.

(** X5: an object has the statistics of its members as written, whatever
    the order in which the runtime enumerates them. *)
Theorem buildStats_objectOf (members : list (string * JsonValue)) (d : Z) :
  NoDup (map fst members) ->
  buildStats (objectOf members) d = buildStats (JObject members) d.
Proof.
  intros D.
  destruct (objectOf_ownPropertyOrder members D)
    as (entries & -> & indexed & -> & P & _).
  cbn [buildStats]. apply reduce_permutation.
  rewrite P. apply filter_partition_permutation.
Qed.

Lemma buildStats_objectOf_witness :
  buildStats (objectOf sample_index_members) 0
    = buildStats (JObject sample_index_members) 0.
Proof.
  apply buildStats_objectOf. repeat constructor; cbn; intuition discriminate.
Defined.

(** ** The statistics against the rendered tree *)

Lemma flat_map_Array_map_from {A C : Type} (F : string * TreeNode -> list C)
  (g : A -> Z -> string * TreeNode) (H : A -> list C) (l : list A) :
  Forall (fun x => forall i, F (g x i) = H x) l ->
  forall i, flat_map F (Array_map_from g i l) = flat_map H l.
Proof.
  induction 1 as [|x l Hx _ IH]; intros i; cbn [Array_map_from flat_map];
    [reflexivity|].
  now rewrite Hx, IH.
Qed.

Lemma map_flat_map_nodes {A B C : Type} (h : B -> C) (F : A -> list B)
  (l : list A) :
  map h (flat_map F l) = flat_map (fun x => map h (F x)) l.
Proof.
  induction l as [|x l IH]; cbn [flat_map map]; [reflexivity|].
  now rewrite map_app, IH.
Qed.

(** The depths in the props of the nodes are the depths of the value's
    nodes, in the same order. *)
Lemma nodes_depths (v : JsonValue) :
  forall nm d l,
    map (fun n => depth (propsOf n)) (nodes (JsonNode nm v d l))
    = nodeDepths v d.
Proof.
  induction v as [s|n|b| |items IH|props IH] using JsonValue_ind; intros nm d l;
    try reflexivity;
    cbn [JsonNode nodes map nodeDepths propsOf depth]; f_equal;
    rewrite map_flat_map_nodes; unfold Array_map, Object_entries;
    apply flat_map_Array_map_from;
    (eapply Forall_impl; [|exact IH]); cbn; intros x Hx i; apply Hx.
Qed.

(** X6: [maxDepth] of the snapshot is the depth of the deepest node of the
    tree rendered from the same value: some node of the tree has that depth
    in its props and none has a greater one. *)
Theorem maxDepth_is_deepest_node (v : JsonValue) (rootLabel : option string) :
  In (maxDepth (buildStats v 0))
    (map (fun n => depth (propsOf n)) (nodes (JsonTree v rootLabel))) /\
  Forall (fun n => depth (propsOf n) <= maxDepth (buildStats v 0))
    (nodes (JsonTree v rootLabel)).
Proof.
  unfold JsonTree.
  destruct (buildStats_greatest v 0) as [I F].
  split.
  - rewrite nodes_depths. exact I.
  - rewrite <- (nodes_depths v (Some match rootLabel with
                                     | Some l => l
                                     | None => "root"
                                     end) 0 true) in F.
    rewrite Forall_map in F. exact F.
Qed.

Lemma tally_app (q : option ContainerKind -> bool) (a b : list TreeNode) :
  tally q (a ++ b) = tally q a + tally q b.
Proof.
  unfold tally. rewrite filter_app, length_app. lia.
Qed.

Lemma tally_cons (q : option ContainerKind -> bool) (n : TreeNode)
  (ns : list TreeNode) :
  tally q (n :: ns) = (if q (kindOf n) then 1 else 0) + tally q ns.
Proof.
  unfold tally. cbn [filter]. destruct (q (kindOf n)); cbn [List.length]; lia.
Qed.

Section Tally.
(** A field of the statistics that the reducer adds up, and the kind of
    node it counts. *)
Variable f : JsonStats -> Z.
Variable q : option ContainerKind -> bool.
Hypothesis f_adds : forall a s, f (accumulate a s) = f a + f s.
Hypothesis f_object :
  forall d, f (mkStats 1 1 0 0 d) = if q (Some ObjectKind) then 1 else 0.
Hypothesis f_array :
  forall d, f (mkStats 1 0 1 0 d) = if q (Some ArrayKind) then 1 else 0.
Hypothesis f_primitive :
  forall d, f (mkStats 1 0 0 1 d) = if q None then 1 else 0.

Lemma reduce_tally {A : Type} (proj : A -> JsonValue)
  (g : A -> Z -> string * TreeNode) (d : Z) (l : list A) :
  Forall (fun x => forall i,
              f (buildStats (proj x) d) = tally q (nodes (snd (g x i)))) l ->
  forall acc i,
    f (Array_reduce (fun acc x => accumulate acc (buildStats (proj x) d))
         acc l)
    = f acc
      + tally q (flat_map (fun kc => nodes (snd kc)) (Array_map_from g i l)).
Proof.
  unfold Array_reduce.
  induction 1 as [|x l Hx _ IH]; intros acc i;
    cbn [fold_left Array_map_from flat_map].
  - unfold tally; cbn; lia.
  - rewrite (IH _ (i + 1)), f_adds, tally_app, (Hx i). lia.
Qed.

Lemma buildStats_tally (v : JsonValue) :
  forall nm d l, f (buildStats v d) = tally q (nodes (JsonNode nm v d l)).
Proof.
  induction v as [s|n|b| |items IH|props IH] using JsonValue_ind; intros nm d l;
    cbn [JsonNode nodes buildStats]; rewrite tally_cons; cbn [kindOf];
    try (rewrite <- (f_primitive d); unfold tally; cbn; lia).
  - unfold Array_map.
    rewrite (reduce_tally (fun x => x)
               (fun childValue index =>
                  (itemKey nm index,
                   JsonNode (Some (indexLabel index)) childValue (d + 1)
                     ((index =? Array_length items - 1)%Z)))
               (d + 1) items
               ltac:(eapply Forall_impl; [|exact IH]; cbn; intros x Hx i;
                     apply Hx) _ 0).
    now rewrite f_array.
  - unfold Array_map, Object_entries.
    rewrite (reduce_tally snd
               (fun entry index =>
                  (fst entry,
                   JsonNode (Some (fst entry)) (snd entry) (d + 1)
                     ((index =? Array_length props - 1)%Z)))
               (d + 1) props
               ltac:(eapply Forall_impl; [|exact IH]; cbn; intros x Hx i;
                     apply Hx) _ 0).
    now rewrite f_object.
Qed.
End Tally.

Lemma tally_all (ns : list TreeNode) :
  tally (fun _ => true) ns = Z.of_nat (List.length ns).
Proof.
  unfold tally. f_equal. f_equal.
  induction ns as [|n ns IH]; cbn; [|rewrite IH]; reflexivity.
Qed.

(** X7: the snapshot counts what the tree shows: [nodeCount] is the number
    of nodes of the tree rendered from the same value, [objectCount] the
    number of its object nodes, [arrayCount] of its array nodes and
    [primitiveCount] of its primitive rows. *)
Theorem buildStats_counts_tree (v : JsonValue) (rootLabel : option string) :
  nodeCount (buildStats v 0)
    = Z.of_nat (List.length (nodes (JsonTree v rootLabel))) /\
  objectCount (buildStats v 0)
    = tally (isKind (Some ObjectKind)) (nodes (JsonTree v rootLabel)) /\
  arrayCount (buildStats v 0)
    = tally (isKind (Some ArrayKind)) (nodes (JsonTree v rootLabel)) /\
  primitiveCount (buildStats v 0)
    = tally (isKind None) (nodes (JsonTree v rootLabel)).
Proof.
  unfold JsonTree. rewrite <- tally_all.
  repeat split; apply buildStats_tally; reflexivity.
Qed.

(** ** Strings and numbers in labels *)

Lemma append_length (a b : string) :
  String.length (a ++ b) = (String.length a + String.length b)%nat.
Proof. induction a as [|c a IH]; cbn; [|rewrite IH]; reflexivity. Qed.

Lemma append_cancel_l (p a b : string) : p ++ a = p ++ b -> a = b.
Proof. induction p as [|c p IH]; cbn; [trivial|]. intros [= H]. auto. Qed.

Lemma append_cancel_r (a b q : string) : a ++ q = b ++ q -> a = b.
Proof.
  revert b; induction a as [|c a IH]; intros [|c' b] H; cbn in H.
  - reflexivity.
  - apply (f_equal String.length) in H. cbn in H.
    rewrite append_length in H. lia.
  - apply (f_equal String.length) in H. cbn in H.
    rewrite append_length in H. lia.
  - injection H as -> H. f_equal. apply IH, H.
Qed.

(** Reading back what [String(n)] printed gives [n]. *)
Lemma Number_parse_toString (n : Z) : Number_parse (Number_toString n) = Some n.
Proof.
  unfold Number_parse, Number_toString.
  assert (exists d, NilZero.int_of_string (NilZero.string_of_int (Z.to_int n))
                    = Some d /\ Z.of_int d = Z.of_int (Z.to_int n))
    as (d & -> & E).
  { destruct (Z.to_int n) as [[| | | | | | | | | |]|[| | | | | | | | | |]] eqn:T;
      try (eexists; split; [apply NilZero.isi; discriminate | reflexivity]);
      eexists; split; reflexivity. }
  cbn [option_map]. now rewrite E, DecimalZ.of_to.
Qed.

Lemma Number_toString_inj (i j : Z) :
  Number_toString i = Number_toString j -> i = j.
Proof.
  intros E. apply (f_equal Number_parse) in E.
  rewrite !Number_parse_toString in E. now injection E.
Qed.

Lemma indexLabel_inj (i j : Z) : indexLabel i = indexLabel j -> i = j.
Proof.
  unfold indexLabel. intros E. apply append_cancel_l in E.
  apply append_cancel_r in E. apply Number_toString_inj, E.
Qed.

Lemma itemKey_inj (nm : option string) (i j : Z) :
  itemKey nm i = itemKey nm j -> i = j.
Proof.
  unfold itemKey. intros E. apply append_cancel_l in E.
  apply append_cancel_l in E. apply Number_toString_inj, E.
Qed.

(** ** Keys and names of siblings *)

Lemma In_Array_map_from_index {A C : Type} (h : Z -> C) (l : list A) :
  forall i y, In y (Array_map_from (fun _ j => h j) i l) ->
              exists j, i <= j /\ y = h j.
Proof.
  induction l as [|x l IH]; intros i y; cbn [Array_map_from In]; [tauto|].
  intros [<-|I].
  - exists i. split; [lia | reflexivity].
  - destruct (IH _ _ I) as (j & L & ->). exists j. split; [lia | reflexivity].
Qed.

(** Labels computed from the index alone by an injective function are
    pairwise distinct. *)
Lemma NoDup_Array_map_from_index {A C : Type} (h : Z -> C) (l : list A) :
  (forall i j, h i = h j -> i = j) ->
  forall i, NoDup (Array_map_from (fun _ j => h j) i l).
Proof.
  intros inj. induction l as [|x l IH]; intros i; cbn [Array_map_from];
    constructor; [|apply IH].
  intros I. apply In_Array_map_from_index in I as (j & L & E).
  apply inj in E. lia.
Qed.

Lemma NoDup_map_injective {A B : Type} (f : A -> B) (l : list A) :
  (forall x y, f x = f y -> x = y) -> NoDup l -> NoDup (map f l).
Proof.
  intros inj. induction 1 as [|x l N _ IH]; cbn [map]; constructor;
    [|exact IH].
  intros I. apply in_map_iff in I as (y & E & I). apply inj in E.
  subst y. exact (N I).
Qed.

Lemma distinctKeys_items (items : list JsonValue) :
  distinctKeys (JArray items) -> Forall distinctKeys items.
Proof.
  cbn [distinctKeys]. induction items as [|x items IH]; cbn [fold_right];
    [constructor|]. intros [Hx H]. constructor; auto.
Qed.

Lemma distinctKeys_props (props : list (string * JsonValue)) :
  distinctKeys (JObject props) ->
  NoDup (map fst props) /\ Forall (fun kv => distinctKeys (snd kv)) props.
Proof.
  cbn [distinctKeys]. intros [N H]. split; [exact N|]. clear N.
  induction props as [|x props IH]; cbn [fold_right] in *; [constructor|].
  destruct H as [Hx H]. constructor; auto.
Qed.

(** A property of the trees rendered from values that satisfy [Q] is a
    property of every node, when [Q] passes from a container to its
    children. *)
Lemma Forall_nodes_JsonNode_where (Q : JsonValue -> Prop)
  (P : TreeNode -> Prop) :
  (forall items, Q (JArray items) -> Forall Q items) ->
  (forall props, Q (JObject props) -> Forall (fun kv => Q (snd kv)) props) ->
  (forall nm v d l, Q v -> P (JsonNode nm v d l)) ->
  forall v, Q v -> forall nm d l, Forall P (nodes (JsonNode nm v d l)).
Proof.
  intros Qitems Qprops HP.
  induction v as [s|n|b| |items IH|props IH] using JsonValue_ind;
    intros HQ nm d l;
    match goal with
    | |- Forall P (nodes (JsonNode _ ?v _ _)) =>
        pose proof (HP nm v d l HQ) as Hroot;
        cbn [JsonNode nodes] in *; constructor;
        [exact Hroot | try constructor]
    end.
  - apply Forall_nodes_children.
    pose proof (Qitems _ HQ) as HQs. rewrite Forall_forall in *.
    intros x I i. apply (IH x I (HQs x I)).
  - apply Forall_nodes_children.
    pose proof (Qprops _ HQ) as HQs. rewrite Forall_forall in *.
    intros x I i. apply (IH x I (HQs x I)).
Qed.

Lemma keys_names_distinct_JsonNode (nm : option string) (v : JsonValue)
  (d : Z) (l : bool) :
  distinctKeys v ->
  NoDup (keysOf (JsonNode nm v d l)) /\
  NoDup (childNames (JsonNode nm v d l)).
Proof.
  intros D. unfold childNames. rewrite childrenOf_JsonNode.
  destruct v as [s|n|b| |items|props]; cbn [JsonNode keysOf map];
    try (split; constructor); unfold Array_map, Object_entries;
    rewrite !map_Array_map_from; cbn [fst]; split.
  - apply (NoDup_Array_map_from_index (itemKey nm)), itemKey_inj.
  - rewrite (Array_map_from_ext _ (fun _ j => Some (indexLabel j)))
      by (intros; now rewrite propsOf_JsonNode).
    apply (NoDup_Array_map_from_index (fun j => Some (indexLabel j))).
    intros i j E. apply indexLabel_inj. congruence.
  - rewrite (Array_map_from_const fst). apply distinctKeys_props, D.
  - rewrite (Array_map_from_ext _ (fun x _ => Some (fst x)))
      by (intros; now rewrite propsOf_JsonNode).
    rewrite (Array_map_from_const (fun x => Some (fst x))).
    rewrite <- (map_map fst Some).
    apply NoDup_map_injective; [now intros x y [= ->]|].
    apply distinctKeys_props, D.
Qed.

(** X8: siblings are told apart: in the tree of a value none of whose
    objects repeats a key, the React keys of the children of every node are
    pairwise distinct, and so are their names. *)
Theorem sibling_keys_distinct (v : JsonValue) (rootLabel : option string) :
  distinctKeys v ->
  Forall (fun n => NoDup (keysOf n) /\ NoDup (childNames n))
    (nodes (JsonTree v rootLabel)).
Proof.
  intros D. unfold JsonTree.
  apply (Forall_nodes_JsonNode_where distinctKeys); try exact D.
  - exact distinctKeys_items.
  - intros props H. apply distinctKeys_props, H.
  - intros nm v' d l. apply keys_names_distinct_JsonNode.
Qed.

Lemma sibling_keys_distinct_witness :
  distinctKeys sample_nested /\
  Forall (fun n => NoDup (keysOf n) /\ NoDup (childNames n))
    (nodes (JsonTree sample_nested None)).
Proof.
  assert (distinctKeys sample_nested) as D.
  { cbn. repeat split; repeat constructor; cbn; tauto. }
  exact (conj D (sibling_keys_distinct sample_nested None D)).
Defined.

(** ** What a node displays *)

Lemma commaOf_JsonNode (nm : option string) (v : JsonValue) (d : Z) (l : bool) :
  commaOf (JsonNode nm v d l) = if isPrimitive v then Some (negb l) else None.
Proof. destruct v; reflexivity. Qed.

Lemma comma_JsonNode (nm : option string) (v : JsonValue) (d : Z) (l : bool) :
  forall (i : nat) (c : TreeNode) (b : bool),
    nth_error (childrenOf (JsonNode nm v d l)) i = Some c ->
    commaOf c = Some b ->
    (b = false <-> S i = List.length (childrenOf (JsonNode nm v d l))).
Proof.
  rewrite childrenOf_JsonNode. intros i c b.
  destruct v as [s|n|b'| |items|props];
    try (destruct i; discriminate);
    unfold Array_map; rewrite Array_map_from_nth, Array_map_from_length;
    (destruct (nth_error _ i) as [x|] eqn:E; [|discriminate]);
    cbn [option_map]; intros [= <-]; rewrite commaOf_JsonNode;
    (destruct (isPrimitive _); [|discriminate]); intros [= <-];
    unfold Array_length;
    match goal with
    | |- context [Z.eqb ?a ?b] => destruct (Z.eqb_spec a b)
    end;
    cbn [negb]; split; try discriminate; try reflexivity; lia.
Qed.

(** X9: the separating comma: among the children of any node, a primitive
    row ends with a comma unless it is the last child; container children
    carry no comma, and neither does the root. *)
Theorem trailing_commas (v : JsonValue) (rootLabel : option string) :
  commaOf (JsonTree v rootLabel)
    = (if isPrimitive v then Some false else None) /\
  Forall
    (fun n =>
       forall (i : nat) (c : TreeNode),
         nth_error (childrenOf n) i = Some c ->
         match commaOf c with
         | Some comma => comma = false <-> S i = List.length (childrenOf n)
         | None => kindOf c <> None
         end)
    (nodes (JsonTree v rootLabel)).
Proof.
  unfold JsonTree. split; [apply commaOf_JsonNode|].
  apply Forall_nodes_JsonNode. intros nm v' d l i c H.
  destruct (commaOf c) as [comma|] eqn:C.
  - apply (comma_JsonNode nm v' d l i c comma H C).
  - destruct c; [discriminate | discriminate C].
Qed.

Lemma sizeLabel_JsonNode (nm : option string) (v : JsonValue) (d : Z)
  (l : bool) :
  sizeLabelIn (JsonNode nm v d l) =
  match kindOf (JsonNode nm v d l) with
  | Some ObjectKind =>
      Some (sizeLabelOf
              (Z.of_nat (List.length (childrenOf (JsonNode nm v d l))))
              "field" "fields")
  | Some ArrayKind =>
      Some (sizeLabelOf
              (Z.of_nat (List.length (childrenOf (JsonNode nm v d l))))
              "item" "items")
  | None => None
  end.
Proof.
  destruct v; try reflexivity;
    cbn [JsonNode sizeLabelIn kindOf childrenOf]; unfold Array_map;
    now rewrite length_map, Array_map_from_length.
Qed.

(** X10: the size written beside every container is the number of children
    rendered under it, followed by "field(s)" for an object and "item(s)"
    for an array, in the singular exactly for one child; a primitive row
    has no size. *)
Theorem size_labels_count_children (v : JsonValue)
  (rootLabel : option string) :
  Forall
    (fun n =>
       sizeLabelIn n =
       match kindOf n with
       | Some ObjectKind =>
           Some (Number_toString (Z.of_nat (List.length (childrenOf n)))
                 ++ " "
                 ++ (if Nat.eqb (List.length (childrenOf n)) 1
                     then "field" else "fields"))
       | Some ArrayKind =>
           Some (Number_toString (Z.of_nat (List.length (childrenOf n)))
                 ++ " "
                 ++ (if Nat.eqb (List.length (childrenOf n)) 1
                     then "item" else "items"))
       | None => None
       end)
    (nodes (JsonTree v rootLabel)).
Proof.
  apply Forall_nodes_JsonNode. intros nm v' d l.
  rewrite sizeLabel_JsonNode. unfold sizeLabelOf.
  replace (Z.of_nat (List.length (childrenOf (JsonNode nm v' d l))) =? 1)%Z
    with (Nat.eqb (List.length (childrenOf (JsonNode nm v' d l))) 1);
    [reflexivity|].
  destruct (Nat.eqb_spec (List.length (childrenOf (JsonNode nm v' d l))) 1)
    as [->|N]; [reflexivity|].
  symmetry. apply Z.eqb_neq. lia.
Qed.

Lemma shownIn_JsonNode (nm : option string) (v : JsonValue) (d : Z) (l : bool) :
  shownIn (JsonNode nm v d l) = shownName nm.
Proof. destruct v; reflexivity. Qed.

Lemma shownName_spec (nm : option string) (s : string) :
  shownName nm = Some s <-> nm = Some s /\ s <> EmptyString.
Proof.
  unfold shownName. destruct nm as [t|]; [|split; [discriminate|tauto]].
  destruct (String.eqb_spec t EmptyString) as [->|N]; split.
  - discriminate.
  - intros [[= <-] H]. now elim H.
  - intros [= ->]. split; [reflexivity | exact N].
  - intros [[= ->] _]. reflexivity.
Qed.

Lemma array_children_shown (nm : option string) (v : JsonValue) (d : Z)
  (l : bool) (c : TreeNode) :
  kindOf (JsonNode nm v d l) = Some ArrayKind ->
  In c (childrenOf (JsonNode nm v d l)) ->
  shownIn c = name (propsOf c) /\ shownIn c <> None.
Proof.
  rewrite childrenOf_JsonNode.
  destruct v as [s|n|b| |items|props]; try discriminate. intros _ I.
  apply In_nth_error in I as (i & I). unfold Array_map in I.
  rewrite Array_map_from_nth in I.
  destruct (nth_error items i) as [x|]; [|discriminate].
  injection I as <-. rewrite shownIn_JsonNode, propsOf_JsonNode.
  split; [reflexivity | discriminate].
Qed.

(** X11: which names are displayed: every node shows its name unless the
    name is the empty string, so a property whose key is the empty string
    is rendered without a name, while every element of an array shows its
    ["[i]"]. *)
Theorem shown_names (v : JsonValue) (rootLabel : option string) :
  Forall
    (fun n =>
       (forall s, shownIn n = Some s
                  <-> name (propsOf n) = Some s /\ s <> EmptyString) /\
       (forall c, kindOf n = Some ArrayKind -> In c (childrenOf n) ->
                  shownIn c = name (propsOf c) /\ shownIn c <> None))
    (nodes (JsonTree v rootLabel)).
Proof.
  apply Forall_nodes_JsonNode. intros nm v' d l. split.
  - intros s. rewrite shownIn_JsonNode, propsOf_JsonNode.
    apply shownName_spec.
  - intros c. apply array_children_shown.
Qed.

(** An object with the empty key: its one child has no name on display. *)
Lemma empty_key_not_shown :
  map shownIn (childrenOf (JsonTree (JObject [(EmptyString, JNull)]) None))
  = [None].
Proof. reflexivity. Qed.

(** ** The type guards and [JsonPrimitive] *)

(** X12: the guards split the values three ways: [isObject] holds of
    objects only ([null] and arrays have [typeof] "object" too but are
    excluded), [isArray] of arrays only, and the values on which both fail
    are [null], booleans, numbers and strings; a value is rendered as an
    object node, an array node or a primitive row accordingly. *)
Theorem guards_classify (nm : option string) (v : JsonValue) (d : Z)
  (l : bool) :
  isObject JNull = false /\
  typeof JNull = "object" /\
  (isObject v = true <-> exists props, v = JObject props) /\
  (isArray v = true <-> exists items, v = JArray items) /\
  isPrimitive v = negb (isObject v || isArray v) /\
  kindOf (JsonNode nm v d l)
    = (if isObject v then Some ObjectKind
       else if isArray v then Some ArrayKind else None).
Proof.
  repeat split; destruct v; cbn; try discriminate; try reflexivity;
    try (intros [x [=]]); eauto.
Qed.



(** ** The handlers of [Home] *)

Section Handler_facts.
Variable JSON_parse : string -> ParseOutcome.
Variable sampleText : string.

(** [parseAndLoad] either leaves the loaded document alone or replaces it,
    its label and its time together. *)
Lemma parseAndLoad_loads (now : Z) (s : HomeState) (text label : string) :
  let s' := parseAndLoad JSON_parse now s text label in
  jsonText s' = jsonText s /\
  ((data s' = data s /\ activeLabel s' = activeLabel s /\
    updatedAt s' = updatedAt s /\ error s' <> None /\
    errorBanner s' = error s')
   \/ (JSON_parse text = Parsed (data s') /\ activeLabel s' = label /\
       updatedAt s' = now /\ error s' = None)).
Proof.
  unfold parseAndLoad, errorBanner.
  destruct (JSON_parse text) as [v|[m|]]; cbn; split; try reflexivity;
    [right | left | left]; repeat split; discriminate.
Qed.

Lemma step_loads (s : HomeState) (now : Z) (e : HomeEvent) :
  let s' := step JSON_parse sampleText s (now, e) in
  (data s' = data s /\ activeLabel s' = activeLabel s /\
   updatedAt s' = updatedAt s /\
   (errorBanner s = error s -> errorBanner s' = error s'))
  \/ (exists text, JSON_parse text = Parsed (data s')) /\
     updatedAt s' = now /\ error s' = None.
Proof.
  unfold step; cbn [fst snd]; cbv zeta.
  destruct e as [text| | |[[|file rest]|] [result|]];
    unfold handleTextParse, handleUseSample, handleFileUpload;
    try (left; repeat split;
         solve [reflexivity | intros B; exact B | intros _; reflexivity]);
    match goal with
    | |- context [parseAndLoad JSON_parse now ?s0 ?text ?label] =>
        destruct (parseAndLoad_loads now s0 text label)
          as [_ [(D & L & U & _ & B)|(P & _ & U & E)]];
        [left; rewrite D, L, U; repeat split; intros _; exact B
        | right; repeat split; [exists text; exact P | exact U | exact E]]
    end.
Qed.

(** X14: whatever the user does, the explorer shows the document it
    started with or one the decoder returned: after any sequence of edits,
    parse clicks, sample loads and file inputs, either the data, its label
    and its time are all still the initial ones, or the data is the result
    of a successful [JSON.parse] and the time is that of one of the
    events. *)
Theorem run_loads (events : list (Z * HomeEvent)) (s : HomeState) :
  (data (run JSON_parse sampleText events s) = data s /\
   activeLabel (run JSON_parse sampleText events s) = activeLabel s /\
   updatedAt (run JSON_parse sampleText events s) = updatedAt s)
  \/ ((exists text,
          JSON_parse text = Parsed (data (run JSON_parse sampleText events s)))
      /\ In (updatedAt (run JSON_parse sampleText events s))
           (map fst events)).
Proof.
  unfold run.
  induction events as [|[now e] events IH] using rev_ind; cbn [fold_left].
  - left. repeat split.
  - rewrite fold_left_app, map_app. cbn [fold_left map fst].
    destruct (step_loads (fold_left (step JSON_parse sampleText) events s)
                now e) as [(D & L & U & _)|(P & U & _)].
    + rewrite D, L, U. destruct IH as [IH|[P I]]; [left; exact IH | right].
      split; [exact P | apply in_or_app; left; exact I].
    + right. split; [exact P|]. rewrite U. apply in_or_app. right. now left.
Qed.

Lemma run_banner (events : list (Z * HomeEvent)) (s : HomeState) :
  errorBanner s = error s ->
  errorBanner (run JSON_parse sampleText events s)
  = error (run JSON_parse sampleText events s).
Proof.
  unfold run. revert s.
  induction events as [|[now e] events IH]; intros s B; cbn [fold_left];
    [exact B|].
  apply IH.
  destruct (step_loads s now e) as [(_ & _ & _ & H)|(_ & _ & E)];
    [exact (H B)|].
  unfold errorBanner. now rewrite E.
Qed.
End Handler_facts.

(** X15: an error that is set is an error that is shown: starting from the
    initial state, after any sequence of events the banner displays exactly
    the [error] of the state; no handler ever stores an empty message, which
    the truthiness test of the banner would hide. *)
Theorem error_always_shown (JSON_parse : string -> ParseOutcome)
  (sampleText : string) (sampleData : JsonValue) (t0 : Z)
  (events : list (Z * HomeEvent)) :
  errorBanner
    (run JSON_parse sampleText events (initialState sampleText sampleData t0))
  = error
      (run JSON_parse sampleText events
         (initialState sampleText sampleData t0)).
Proof. apply run_banner. reflexivity. Qed.

(** Decoding the text that the state holds, once more. *)
Lemma reparse_same (JSON_parse : string -> ParseOutcome) (t1 t2 : Z)
  (s : HomeState) (text label : string) :
  let s1 := parseAndLoad JSON_parse t1 (setJsonText s text) text label in
  let s2 := handleTextParse JSON_parse t2 s1 in
  jsonText s2 = jsonText s1 /\ data s2 = data s1 /\ error s2 = error s1.
Proof.
  unfold handleTextParse, parseAndLoad, setJsonText. cbn.
  destruct (JSON_parse text) as [v|[m|]] eqn:E; cbn; rewrite E; cbn;
    repeat split.
Qed.

(** X16: pressing "Parse JSON" right after a load changes nothing that the
    explorer shows: after a parse click, a sample load or a file that was
    read, a parse click decodes the same text again and ends with the same
    editor text, the same data and the same error. *)
Theorem parse_click_after_load (JSON_parse : string -> ParseOutcome)
  (sampleText : string) (t1 t2 : Z) (s : HomeState) (file : File)
  (rest : list File) (result : option string) :
  let again := handleTextParse JSON_parse t2 in
  let same s1 :=
    jsonText (again s1) = jsonText s1 /\ data (again s1) = data s1 /\
    error (again s1) = error s1 in
  same (handleTextParse JSON_parse t1 s) /\
  same (handleUseSample JSON_parse sampleText t1 s) /\
  same (handleFileUpload JSON_parse t1 s (Some (file :: rest))
          (ReadDone result)).
Proof.
  cbv zeta. split; [|split].
  - pose proof (reparse_same JSON_parse t1 t2 s (jsonText s) "Manual input")
      as H.
    replace (setJsonText s (jsonText s)) with s in H by (now destruct s).
    exact H.
  - apply reparse_same.
  - apply reparse_same.
Qed.

(** X17: what a file input does.  Without a file the state is untouched.
    When the reader fails, only the error changes.  When the file is read,
    its text (the empty text when the reader has no result) replaces the
    editor text whether or not it decodes; if it does not decode, the data,
    its label and its time stay, so that the editor and the explorer show
    different documents; if it decodes, the data is the decoded value and
    the label is the file's name. *)
Theorem handleFileUpload_cases (JSON_parse : string -> ParseOutcome)
  (now : Z) (s : HomeState) (file : File) (rest : list File)
  (outcome : ReadOutcome) (result : option string) :
  let text := match result with Some r => r | None => EmptyString end in
  let failed := handleFileUpload JSON_parse now s (Some (file :: rest))
                  ReadError in
  let read := handleFileUpload JSON_parse now s (Some (file :: rest))
                (ReadDone result) in
  handleFileUpload JSON_parse now s None outcome = s /\
  handleFileUpload JSON_parse now s (Some []) outcome = s /\
  failed = setError s (Some "Unable to read the selected file.") /\
  jsonText read = text /\
  (forall err, JSON_parse text = Threw err ->
               data read = data s /\ activeLabel read = activeLabel s /\
               updatedAt read = updatedAt s /\ error read <> None) /\
  (forall v, JSON_parse text = Parsed v ->
             data read = v /\ activeLabel read = file_name file /\
             updatedAt read = now /\ error read = None).
Proof.
  cbv zeta. unfold handleFileUpload, parseAndLoad, setJsonText.
  repeat split; try (destruct (JSON_parse _); reflexivity);
    try (rewrite H; cbn; (reflexivity || discriminate)).
Qed.
